(** * Placeholder registry of the CTF writeup generator front ends

    A shallow embedding of the three browser scripts of the repository:

    - [Chat]: the chat front end that reads pasted images with a
      [FileReader], keeps a session identifier and resets the registry
      after every request (first script of [src/unnamed/part_000]);
    - [ChatObjUrl]: the chat front end that registers object URLs
      and has no session identifier (second script of
      [src/unnamed/part_000]);
    - [Frontend2]: the form front end that renumbers placeholders when a
      mapping is deleted ([src/frontend2/script.js]).

    Each script is modelled by a record holding its module-scoped
    variables and the DOM properties it reads and writes, and by one state
    transformer per event handler.  An [async] handler is cut at its
    [await fetch]: a first transformer runs up to the call and a second
    one resumes from the outcome of the call.  What the scripts do to the
    outside world ([fetch], [alert], saving a file) is appended to logs
    kept in the state. *)

From stdpp Require Import gmap strings list pretty.

Open Scope N_scope.
Open Scope nat_scope.

(** ** JavaScript strings

    A JavaScript string is a sequence of UTF-16 code units; [length],
    [substring] and caret offsets all count code units. *)

Abbreviation jsstring := (list N).

(** A string literal of the source, as code units. *)
Definition lit (s : string) : jsstring :=
  Ascii.N_of_ascii <$> String.list_ascii_of_string s.

(** [`${n}`] for a counter [n]: the decimal numeral without leading
    zeros.  The counters only ever hold the integers 1, 2, 3, ... on which
    JavaScript numbers are exact, so they are modelled by [N]. *)
Definition decimal (n : N) : jsstring := lit (pretty n).

(** [s.substring(from, to)]: both indices are clamped to the length and
    swapped when [from > to]. *)
Definition substring (s : jsstring) (from to : nat) : jsstring :=
  let a := from `min` length s in
  let b := to `min` length s in
  take (a `max` b - a `min` b) (drop (a `min` b) s).

(** [s.substring(from)]. *)
Definition substring_from (s : jsstring) (from : nat) : jsstring :=
  substring s from (length s).

(** The code units [String.prototype.trim] strips: ECMAScript's
    WhiteSpace and LineTerminator. *)
Definition is_whitespace (c : N) : bool :=
  bool_decide (c ∈ [0x9; 0xA; 0xB; 0xC; 0xD; 0x20; 0xA0; 0x1680;
                    0x2000; 0x2001; 0x2002; 0x2003; 0x2004; 0x2005; 0x2006;
                    0x2007; 0x2008; 0x2009; 0x200A; 0x2028; 0x2029; 0x202F;
                    0x205F; 0x3000; 0xFEFF]%N).

Fixpoint trimStart (s : jsstring) : jsstring :=
  match s with
  | c :: s' => if is_whitespace c then trimStart s' else s
  | [] => []
  end.

(** [s.trim()]. *)
Definition trim (s : jsstring) : jsstring :=
  reverse (trimStart (reverse (trimStart s))).

(** Empty or made of white space only. *)
Definition blank (s : jsstring) : Prop := Forall (λ c, is_whitespace c = true) s.

Fixpoint startsWith (s prefix : jsstring) {struct prefix} : bool :=
  match prefix with
  | [] => true
  | p :: prefix' =>
      match s with
      | c :: s' => bool_decide (p = c) && startsWith s' prefix'
      | [] => false
      end
  end.

(** [s.indexOf(needle) !== -1]. *)
Fixpoint includes (s needle : jsstring) : bool :=
  startsWith s needle ||
  match s with
  | [] => false
  | _ :: s' => includes s' needle
  end.

(** A value that is either [undefined]/[null] or a string. *)
Abbreviation jsvalue := (option jsstring).

(** [v || fallback] for such a value: the empty string is falsy too. *)
Definition or_else (v : jsvalue) (fallback : jsstring) : jsstring :=
  match v with
  | Some (c :: s) => c :: s
  | Some [] | None => fallback
  end.

(** Truthiness of such a value. *)
Definition truthy (v : jsvalue) : bool :=
  match v with
  | Some (_ :: _) => true
  | Some [] | None => false
  end.

(** ** Placeholder tokens *)

Inductive ptype := Img | Code.

Global Instance ptype_eq_dec : EqDecision ptype.
Proof. solve_decision. Defined.

Definition type_name (t : ptype) : jsstring :=
  match t with Img => lit "img" | Code => lit "code" end.

(** [`[[${type}${n}]]`]. *)
Definition token (t : ptype) (n : N) : jsstring :=
  lit "[[" ++ type_name t ++ decimal n ++ lit "]]".

(** [`[[${type}${counter++}]]`]: the token and the incremented counter. *)
Definition mint (t : ptype) (counter : N) : jsstring * N :=
  (token t counter, (counter + 1)%N).

(** The tokens numbered [first], [first + 1], ... of a type. *)
Definition tokens (t : ptype) (first count : nat) : list jsstring :=
  (λ i, token t (N.of_nat i)) <$> seq first count.

(** ** The browser's File API

    A pasted or selected file is known to the scripts only through what
    the browser answers for it. *)
Record Blob := {
  blob_readable : bool;        (* whether a [FileReader] manages to read it *)
  blob_type : jsstring;        (* MIME type *)
  blob_base64 : jsstring;      (* its bytes in base64 *)
  blob_object_url : jsstring;  (* what follows [blob:] in its object URL *)
}.

(** [reader.result] after [reader.readAsDataURL(blob)]. *)
Definition readAsDataURL (b : Blob) : jsstring :=
  lit "data:" ++ blob_type b ++ lit ";base64," ++ blob_base64 b.

(** [URL.createObjectURL(blob)]. *)
Definition createObjectURL (b : Blob) : jsstring :=
  lit "blob:" ++ blob_object_url b.

(** A string produced by reading a file as a data URL. *)
Definition is_data_url (s : jsstring) : Prop := ∃ b, s = readAsDataURL b.

(** Every entry of a placeholder map under an image token holds a data
    URL. *)
Definition images_are_data_urls (m : gmap jsstring jsstring) : Prop :=
  ∀ n v, m !! token Img n = Some v → is_data_url v.

(** An item of [e.clipboardData.items]. *)
Record ClipboardItem := {
  item_type : jsstring;
  item_file : Blob;            (* [getAsFile()] *)
}.

(** ** The generation service, as seen through [fetch] *)

(** A JSON object of the service's interface: string fields, each
    possibly absent. *)
Record JsonObject := {
  detail : jsvalue;
  session_id : jsvalue;
  generated_text : jsvalue;
}.

Definition empty_object : JsonObject :=
  {| detail := None; session_id := None; generated_text := None |}.

Inductive Body :=
  | NotJson (message : jsstring)   (* [response.json()] rejects with this message *)
  | Json (o : JsonObject).

(** [ok] is [response.ok]: the interface answers 200 on success and
    another status on failure. *)
Record Response := { ok : bool; body : Body }.

Inductive FetchOutcome :=
  | Rejected (message : jsstring)  (* the network layer fails *)
  | Responded (r : Response).

(** A [fetch] call: the URL and the JSON body. *)
Inductive Request :=
  | Generate (url prompt : jsstring) (mappings : gmap jsstring jsstring)
             (category : jsstring)
  | Export (url : jsstring) (session : jsstring) (markdown_content : jsvalue).

(** The export requests among [fetch] calls, as (session, content). *)
Definition exports (requests : list Request) : list (jsstring * jsvalue) :=
  omap (λ r, match r with
             | Export _ session content => Some (session, content)
             | Generate _ _ _ _ => None
             end) requests.

(** The generation requests among [fetch] calls, as (prompt, mappings). *)
Definition generations (requests : list Request)
  : list (jsstring * gmap jsstring jsstring) :=
  omap (λ r, match r with
             | Generate _ prompt mappings _ => Some (prompt, mappings)
             | Export _ _ _ => None
             end) requests.

(** The lines shared by both [insertPlaceholder] functions:
    [text.substring(0, position) + placeholder + text.substring(position)]
    and [position + placeholder.length]. *)
Definition insertAt (text placeholder : jsstring) (position : nat)
  : jsstring * nat :=
  (substring text 0 position ++ placeholder ++ substring_from text position,
   position + length placeholder).

(** * The chat front end with sessions ([src/unnamed/part_000], first script) *)

Module Chat.

(** A child of [chatBox]: a message with the contents handed to its
    download buttons, or the loading animation. *)
Inductive Node :=
  | MessageEl (sender text : jsstring) (buttons : list jsvalue)
  | LoadingEl.

(** The script's variables, the DOM properties it uses, and the logs of
    its [fetch] calls, [alert]s and saved files.  Children of [chatBox]
    carry an identity, [next_node] being the next unused one.  Class
    toggles and scrolling are presentation only and left out. *)
#[projections(primitive)] Record State := mkState {
  messageInput_value : jsstring;
  messageInput_selectionStart : nat;
  sendButton_disabled : bool;
  chatBox : list (nat * Node);
  next_node : nat;
  categorySelect_value : jsstring;
  imagePreviewContainer : list (jsstring * jsstring);
  codePreviewContainer : list (jsstring * jsstring);
  codeModal_display : jsstring;
  codeInput_value : jsstring;
  placeholderMap : gmap jsstring jsstring;
  codeCounter : N;
  imgCounter : N;
  lastCursorPosition : nat;
  isFocusMode : bool;
  currentSessionId : jsvalue;
  fetched : list Request;
  alerts : list jsstring;
  saved : list jsstring;
}.

(** One update per field: [set_f v st] is [st] with field [f] set to [v]. *)
Definition set_messageInput_value (v : jsstring) (st : State) : State :=
  let 'mkState _ b c d e f g h i j k l m n o p q r s := st in
  mkState v b c d e f g h i j k l m n o p q r s.

Definition set_messageInput_selectionStart (v : nat) (st : State) : State :=
  let 'mkState a _ c d e f g h i j k l m n o p q r s := st in
  mkState a v c d e f g h i j k l m n o p q r s.

Definition set_sendButton_disabled (v : bool) (st : State) : State :=
  let 'mkState a b _ d e f g h i j k l m n o p q r s := st in
  mkState a b v d e f g h i j k l m n o p q r s.

Definition set_chatBox (v : list (nat * Node)) (st : State) : State :=
  let 'mkState a b c _ e f g h i j k l m n o p q r s := st in
  mkState a b c v e f g h i j k l m n o p q r s.

Definition set_next_node (v : nat) (st : State) : State :=
  let 'mkState a b c d _ f g h i j k l m n o p q r s := st in
  mkState a b c d v f g h i j k l m n o p q r s.

Definition set_categorySelect_value (v : jsstring) (st : State) : State :=
  let 'mkState a b c d e _ g h i j k l m n o p q r s := st in
  mkState a b c d e v g h i j k l m n o p q r s.

Definition set_imagePreviewContainer (v : list (jsstring * jsstring)) (st : State) : State :=
  let 'mkState a b c d e f _ h i j k l m n o p q r s := st in
  mkState a b c d e f v h i j k l m n o p q r s.

Definition set_codePreviewContainer (v : list (jsstring * jsstring)) (st : State) : State :=
  let 'mkState a b c d e f g _ i j k l m n o p q r s := st in
  mkState a b c d e f g v i j k l m n o p q r s.

Definition set_codeModal_display (v : jsstring) (st : State) : State :=
  let 'mkState a b c d e f g h _ j k l m n o p q r s := st in
  mkState a b c d e f g h v j k l m n o p q r s.

Definition set_codeInput_value (v : jsstring) (st : State) : State :=
  let 'mkState a b c d e f g h i _ k l m n o p q r s := st in
  mkState a b c d e f g h i v k l m n o p q r s.

Definition set_placeholderMap (v : gmap jsstring jsstring) (st : State) : State :=
  let 'mkState a b c d e f g h i j _ l m n o p q r s := st in
  mkState a b c d e f g h i j v l m n o p q r s.

Definition set_codeCounter (v : N) (st : State) : State :=
  let 'mkState a b c d e f g h i j k _ m n o p q r s := st in
  mkState a b c d e f g h i j k v m n o p q r s.

Definition set_imgCounter (v : N) (st : State) : State :=
  let 'mkState a b c d e f g h i j k l _ n o p q r s := st in
  mkState a b c d e f g h i j k l v n o p q r s.

Definition set_lastCursorPosition (v : nat) (st : State) : State :=
  let 'mkState a b c d e f g h i j k l m _ o p q r s := st in
  mkState a b c d e f g h i j k l m v o p q r s.

Definition set_isFocusMode (v : bool) (st : State) : State :=
  let 'mkState a b c d e f g h i j k l m n _ p q r s := st in
  mkState a b c d e f g h i j k l m n v p q r s.

Definition set_currentSessionId (v : jsvalue) (st : State) : State :=
  let 'mkState a b c d e f g h i j k l m n o _ q r s := st in
  mkState a b c d e f g h i j k l m n o v q r s.

Definition set_fetched (v : list Request) (st : State) : State :=
  let 'mkState a b c d e f g h i j k l m n o p _ r s := st in
  mkState a b c d e f g h i j k l m n o p v r s.

Definition set_alerts (v : list jsstring) (st : State) : State :=
  let 'mkState a b c d e f g h i j k l m n o p q _ s := st in
  mkState a b c d e f g h i j k l m n o p q v s.

Definition set_saved (v : list jsstring) (st : State) : State :=
  let 'mkState a b c d e f g h i j k l m n o p q r _ := st in
  mkState a b c d e f g h i j k l m n o p q r v.

(** The state when the script has run its top level; what the page itself
    provides is taken empty. *)
Definition init : State :=
  {| messageInput_value := []; messageInput_selectionStart := 0;
     sendButton_disabled := false; chatBox := []; next_node := 0;
     categorySelect_value := []; imagePreviewContainer := [];
     codePreviewContainer := []; codeModal_display := lit "none";
     codeInput_value := []; placeholderMap := ∅; codeCounter := 1;
     imgCounter := 1; lastCursorPosition := 0; isFocusMode := false;
     currentSessionId := None; fetched := []; alerts := []; saved := [] |}.

Definition enterFocusMode (st : State) : State :=
  if isFocusMode st then st else set_isFocusMode true st.

Definition exitFocusMode (st : State) : State :=
  if negb (isFocusMode st) then st else set_isFocusMode false st.

(** [messageInput.value = v]: the browser moves the caret to the end of
    the new text. *)
Definition assign_value (v : jsstring) (st : State) : State :=
  set_messageInput_selectionStart (length v) (set_messageInput_value v st).

Definition insertPlaceholder (placeholder : jsstring) (position : nat)
    (st : State) : State :=
  let text := messageInput_value st in
  let '(value, newCursorPos) := insertAt text placeholder position in
  let st := assign_value value st in
  (* setSelectionRange(newCursorPos, newCursorPos) *)
  let st := set_messageInput_selectionStart (newCursorPos `min` length value) st in
  set_lastCursorPosition newCursorPos st.

Definition addImagePreview (url placeholder : jsstring) (st : State) : State :=
  set_imagePreviewContainer (imagePreviewContainer st ++ [(url, placeholder)]) st.

Definition addCodePreview (code placeholder : jsstring) (st : State) : State :=
  set_codePreviewContainer (codePreviewContainer st ++ [(code, placeholder)]) st.

(** Returns the new element's identity with the state. *)
Definition appendMessage (text sender : jsstring) (st : State) : nat * State :=
  let id := next_node st in
  (id, set_next_node (S id)
         (set_chatBox (chatBox st ++ [(id, MessageEl sender text [])]) st)).

Definition addDownloadButtons (messageElement : nat) (content : jsvalue)
    (st : State) : State :=
  set_chatBox
    ((λ '(id, n),
       match n with
       | MessageEl sender text buttons =>
           if decide (id = messageElement)
           then (id, MessageEl sender text (buttons ++ [content]))
           else (id, n)
       | LoadingEl => (id, n)
       end) <$> chatBox st) st.

Definition showLoadingAnimation (st : State) : nat * State :=
  let id := next_node st in
  (id, set_next_node (S id) (set_chatBox (chatBox st ++ [(id, LoadingEl)]) st)).

(** Removes the element when it still has a parent. *)
Definition hideLoadingAnimation (loadingAnimation : nat) (st : State) : State :=
  set_chatBox (filter (λ e, e.1 ≠ loadingAnimation) (chatBox st)) st.

(** The [focusout] listener of the message input. *)
Definition focusout (st : State) : State :=
  set_lastCursorPosition (messageInput_selectionStart st) st.

Definition addCodeFromModal (st : State) : State :=
  let codeText := codeInput_value st in
  if decide (trim codeText = []) then st
  else
    let '(placeholder, counter) := mint Code (codeCounter st) in
    let st := set_codeCounter counter st in
    let st := set_placeholderMap (<[placeholder := codeText]> (placeholderMap st)) st in
    let st := insertPlaceholder placeholder (lastCursorPosition st) st in
    let st := addCodePreview codeText placeholder st in
    let st := set_codeInput_value [] st in
    set_codeModal_display (lit "none") st.

(** [handlePaste] starts one reader per image item and returns; the
    files being read are its result. *)
Definition handlePaste (items : list ClipboardItem) : list Blob :=
  item_file <$> filter (λ it, includes (item_type it) (lit "image") = true) items.

(** [reader.onload] for a file read by [handlePaste]. *)
Definition reader_onload (blob : Blob) (st : State) : State :=
  let base64Url := readAsDataURL blob in
  let '(placeholder, counter) := mint Img (imgCounter st) in
  let st := set_imgCounter counter st in
  let st := set_placeholderMap (<[placeholder := base64Url]> (placeholderMap st)) st in
  let st := insertPlaceholder placeholder (messageInput_selectionStart st) st in
  addImagePreview base64Url placeholder st.

(** The lines after [try]/[catch]/[finally] in [sendMessage]. *)
Definition reset (st : State) : State :=
  set_codePreviewContainer []
    (set_imagePreviewContainer []
      (set_imgCounter 1 (set_codeCounter 1 (set_placeholderMap ∅ st)))).

(** [sendMessage] up to [await fetch]: the state, and the loading
    animation's identity when a request was issued. *)
Definition sendMessage (st : State) : State * option nat :=
  if sendButton_disabled st then (st, None)
  else
    let st := set_sendButton_disabled true st in
    let messageText := trim (messageInput_value st) in
    if decide (messageText = []) then (set_sendButton_disabled false st, None)
    else
      let st := if isFocusMode st then exitFocusMode st else st in
      let st := (appendMessage messageText (lit "user") st).2 in
      let st := assign_value [] st in
      let '(loadingAnimation, st) := showLoadingAnimation st in
      let st := set_fetched
        (fetched st ++ [Generate (lit "http://localhost:8000/generate") messageText
                          (placeholderMap st) (categorySelect_value st)]) st in
      (st, Some loadingAnimation).

(** What the [try] block ends in: the parsed success body, or the
    message of the error thrown. *)
Definition try_block (o : FetchOutcome) : JsonObject + jsstring :=
  match o with
  | Rejected message => inr message
  | Responded r =>
      if negb (ok r) then
        let errorData :=
          match body r with Json o => o | NotJson _ => empty_object end in
        inr (or_else (detail errorData) (lit "An unknown error occurred."))
      else
        match body r with
        | Json data => inl data
        | NotJson message => inr message
        end
  end.

(** [sendMessage] from the outcome of [fetch] to its end. *)
Definition sendMessage_resume (loadingAnimation : nat) (o : FetchOutcome)
    (st : State) : State :=
  let st :=
    match try_block o with
    | inl data =>
        let st := set_currentSessionId (session_id data) st in
        let st := hideLoadingAnimation loadingAnimation st in
        let '(botMessage, st) := appendMessage (lit "Done!") (lit "bot") st in
        addDownloadButtons botMessage (generated_text data) st
    | inr message =>
        let st := hideLoadingAnimation loadingAnimation st in
        (appendMessage (lit "Error: " ++ message) (lit "bot") st).2
    end in
  let st := set_sendButton_disabled false st in
  reset st.

(** [downloadPackage] and [downloadDocx] differ in the endpoint, the file
    name and the failure notice. *)
Inductive Artifact := Package | Docx.

Definition export_url (a : Artifact) : jsstring :=
  match a with
  | Package => lit "http://localhost:8000/download-package"
  | Docx => lit "http://localhost:8000/download-docx"
  end.

Definition export_name (a : Artifact) : jsstring :=
  match a with Package => lit "writeup_package.zip" | Docx => lit "writeup.docx" end.

Definition export_failure (a : Artifact) : jsstring :=
  match a with
  | Package => lit "Failed to download package."
  | Docx => lit "Failed to download .docx file."
  end.

(** [downloadPackage(content)] / [downloadDocx(content)] up to
    [await fetch]; [true] when a request was issued. *)
Definition download (a : Artifact) (content : jsvalue) (st : State)
  : State * bool :=
  match currentSessionId st with
  | Some (c :: s) =>
      (set_fetched (fetched st ++ [Export (export_url a) (c :: s) content]) st, true)
  | _ =>
      (set_alerts
         (alerts st ++ [lit "No session ID found. Please generate a writeup first."])
         st, false)
  end.

(** ... and from the outcome of [fetch]: [true] stands for an [ok]
    response whose blob was read. *)
Definition download_resume (a : Artifact) (succeeded : bool) (st : State) : State :=
  if succeeded then set_saved (saved st ++ [export_name a]) st
  else set_alerts (alerts st ++ [export_failure a]) st.

(** The events of the page: what the user does and what the browser
    delivers to the script. *)
Inductive Event :=
  | TypeMessage (value : jsstring) (caret : nat)
  | TypeCode (value : jsstring)
  | SelectCategory (value : jsstring)
  | FocusOut
  | ClickInput
  | ClickOverlay
  | OpenModal
  | CancelModal
  | AddCode
  | ReaderLoad (blob : Blob)
  | Send
  | SendSettled (loadingAnimation : nat) (o : FetchOutcome)
  | Download (a : Artifact) (content : jsvalue)
  | DownloadSettled (a : Artifact) (succeeded : bool).

Definition step (e : Event) (st : State) : State :=
  match e with
  | TypeMessage value caret =>
      set_messageInput_selectionStart (caret `min` length value)
        (set_messageInput_value value st)
  | TypeCode value => set_codeInput_value value st
  | SelectCategory value => set_categorySelect_value value st
  | FocusOut => focusout st
  | ClickInput => enterFocusMode st
  | ClickOverlay => exitFocusMode st
  | OpenModal => set_codeModal_display (lit "flex") st
  | CancelModal => set_codeModal_display (lit "none") st
  | AddCode => addCodeFromModal st
  | ReaderLoad blob => reader_onload blob st
  | Send => (sendMessage st).1
  | SendSettled loadingAnimation o => sendMessage_resume loadingAnimation o st
  | Download a content => (download a content st).1
  | DownloadSettled a succeeded => download_resume a succeeded st
  end.

Definition run (events : list Event) (st : State) : State :=
  foldl (λ st e, step e st) st events.

(** The placeholder registry held in the state: the map, the two
    counters, and the previews of the images and of the code blocks. *)
Definition registry (st : State) :=
  (placeholderMap st, imgCounter st, codeCounter st,
   imagePreviewContainer st, codePreviewContainer st).

(** The registry as the top level of the script and [reset] leave it. *)
Definition fresh (st : State) : Prop := registry st = (∅, 1%N, 1%N, [], []).

(** The previews carry the tokens 1, 2, ... of their type in order, and
    each counter stands after the last token given. *)
Definition numbered (st : State) : Prop :=
  (imagePreviewContainer st).*2 = tokens Img 1 (length (imagePreviewContainer st)) ∧
  imgCounter st = N.of_nat (S (length (imagePreviewContainer st))) ∧
  (codePreviewContainer st).*2 = tokens Code 1 (length (codePreviewContainer st)) ∧
  codeCounter st = N.of_nat (S (length (codePreviewContainer st))).

(** The events that end a generation request, and with it reset the
    registry. *)
Definition settles (e : Event) : bool :=
  match e with SendSettled _ _ => true | _ => false end.

(** The files whose reading completed among the events. *)
Definition loads (events : list Event) : list Blob :=
  omap (λ e, match e with ReaderLoad blob => Some blob | _ => None end) events.

(** The texts of the messages shown in the chat box. *)
Definition shown (st : State) : list jsstring :=
  omap (λ e, match e.2 with
             | MessageEl _ text _ => Some text
             | LoadingEl => None
             end) (chatBox st).

(** The caret of the message input lies within its text, as the browser
    keeps it. *)
Definition caret_within (st : State) : Prop :=
  messageInput_selectionStart st ≤ length (messageInput_value st).

(** The identities of the children of [chatBox] are below [next_node]. *)
Definition ids_below (st : State) : Prop :=
  Forall (λ e, e.1 < next_node st) (chatBox st).

(** The map and the previews agree: the map sends a token to a content
    exactly when a preview shows that content under that token. *)
Definition synced (st : State) : Prop :=
  ∀ k v, placeholderMap st !! k = Some v
         ↔ (v, k) ∈ imagePreviewContainer st ++ codePreviewContainer st.

(** The keydown listener of the message input: Enter without Shift
    sends. *)
Definition messageInput_keydown (key : jsstring) (shiftKey : bool) (st : State)
  : State * option nat :=
  if bool_decide (key = lit "Enter") && negb shiftKey then sendMessage st
  else (st, None).

(** The events that end a generation request with success. *)
Definition succeeds (e : Event) : bool :=
  match e with
  | SendSettled _ o => match try_block o with inl _ => true | inr _ => false end
  | _ => false
  end.

End Chat.

(** * The chat front end with object URLs ([src/unnamed/part_000], second script) *)

Module ChatObjUrl.

(** A child of [chatBox]: a message with the contents handed to its
    download buttons.  The "Thinking..." placeholder is a message too. *)
Inductive Node :=
  | MessageEl (sender text : jsstring) (buttons : list jsvalue).

#[projections(primitive)] Record State := mkState {
  messageInput_value : jsstring;
  messageInput_selectionStart : nat;
  chatBox : list (nat * Node);
  next_node : nat;
  categorySelect_value : jsstring;
  imagePreviewContainer : list (jsstring * jsstring);
  codeModal_display : jsstring;
  codeInput_value : jsstring;
  placeholderMap : gmap jsstring jsstring;
  codeCounter : N;
  imgCounter : N;
  lastCursorPosition : nat;
  isFocusMode : bool;
  fetched : list Request;
  saved : list jsstring;
}.

(** One update per field: [set_f v st] is [st] with field [f] set to [v]. *)
Definition set_messageInput_value (v : jsstring) (st : State) : State :=
  let 'mkState _ b c d e f g h i j k l m n o := st in
  mkState v b c d e f g h i j k l m n o.

Definition set_messageInput_selectionStart (v : nat) (st : State) : State :=
  let 'mkState a _ c d e f g h i j k l m n o := st in
  mkState a v c d e f g h i j k l m n o.

Definition set_chatBox (v : list (nat * Node)) (st : State) : State :=
  let 'mkState a b _ d e f g h i j k l m n o := st in
  mkState a b v d e f g h i j k l m n o.

Definition set_next_node (v : nat) (st : State) : State :=
  let 'mkState a b c _ e f g h i j k l m n o := st in
  mkState a b c v e f g h i j k l m n o.

Definition set_categorySelect_value (v : jsstring) (st : State) : State :=
  let 'mkState a b c d _ f g h i j k l m n o := st in
  mkState a b c d v f g h i j k l m n o.

Definition set_imagePreviewContainer (v : list (jsstring * jsstring)) (st : State) : State :=
  let 'mkState a b c d e _ g h i j k l m n o := st in
  mkState a b c d e v g h i j k l m n o.

Definition set_codeModal_display (v : jsstring) (st : State) : State :=
  let 'mkState a b c d e f _ h i j k l m n o := st in
  mkState a b c d e f v h i j k l m n o.

Definition set_codeInput_value (v : jsstring) (st : State) : State :=
  let 'mkState a b c d e f g _ i j k l m n o := st in
  mkState a b c d e f g v i j k l m n o.

Definition set_placeholderMap (v : gmap jsstring jsstring) (st : State) : State :=
  let 'mkState a b c d e f g h _ j k l m n o := st in
  mkState a b c d e f g h v j k l m n o.

Definition set_codeCounter (v : N) (st : State) : State :=
  let 'mkState a b c d e f g h i _ k l m n o := st in
  mkState a b c d e f g h i v k l m n o.

Definition set_imgCounter (v : N) (st : State) : State :=
  let 'mkState a b c d e f g h i j _ l m n o := st in
  mkState a b c d e f g h i j v l m n o.

Definition set_lastCursorPosition (v : nat) (st : State) : State :=
  let 'mkState a b c d e f g h i j k _ m n o := st in
  mkState a b c d e f g h i j k v m n o.

Definition set_isFocusMode (v : bool) (st : State) : State :=
  let 'mkState a b c d e f g h i j k l _ n o := st in
  mkState a b c d e f g h i j k l v n o.

Definition set_fetched (v : list Request) (st : State) : State :=
  let 'mkState a b c d e f g h i j k l m _ o := st in
  mkState a b c d e f g h i j k l m v o.

Definition set_saved (v : list jsstring) (st : State) : State :=
  let 'mkState a b c d e f g h i j k l m n _ := st in
  mkState a b c d e f g h i j k l m n v.

Definition init : State :=
  {| messageInput_value := []; messageInput_selectionStart := 0;
     chatBox := []; next_node := 0; categorySelect_value := [];
     imagePreviewContainer := []; codeModal_display := lit "none";
     codeInput_value := []; placeholderMap := ∅; codeCounter := 1;
     imgCounter := 1; lastCursorPosition := 0; isFocusMode := false;
     fetched := []; saved := [] |}.

Definition enterFocusMode (st : State) : State :=
  if isFocusMode st then st else set_isFocusMode true st.

Definition exitFocusMode (st : State) : State :=
  if negb (isFocusMode st) then st else set_isFocusMode false st.

Definition assign_value (v : jsstring) (st : State) : State :=
  set_messageInput_selectionStart (length v) (set_messageInput_value v st).

Definition insertPlaceholder (placeholder : jsstring) (position : nat)
    (st : State) : State :=
  let text := messageInput_value st in
  let '(value, newCursorPos) := insertAt text placeholder position in
  let st := assign_value value st in
  let st := set_messageInput_selectionStart (newCursorPos `min` length value) st in
  set_lastCursorPosition newCursorPos st.

Definition addImagePreview (url placeholder : jsstring) (st : State) : State :=
  set_imagePreviewContainer (imagePreviewContainer st ++ [(url, placeholder)]) st.

(** [el.innerText = v]: a value that is not a string is converted to
    one. *)
Definition innerText_of (v : jsvalue) : jsstring := default (lit "undefined") v.

Definition appendMessage (text : jsvalue) (sender : jsstring) (st : State)
  : nat * State :=
  let id := next_node st in
  (id, set_next_node (S id)
         (set_chatBox
            (chatBox st ++ [(id, MessageEl sender (innerText_of text) [])]) st)).

Definition addDownloadButton (messageElement : nat) (content : jsvalue)
    (st : State) : State :=
  set_chatBox
    ((λ '(id, MessageEl sender text buttons),
       if decide (id = messageElement)
       then (id, MessageEl sender text (buttons ++ [content]))
       else (id, MessageEl sender text buttons)) <$> chatBox st) st.

(** [downloadMarkdown(content)] saves a local file; no request is made. *)
Definition downloadMarkdown (st : State) : State :=
  set_saved (saved st ++ [lit "writeup.md"]) st.

(** [chatBox.removeChild(child)]: a [NotFoundError] ([None]) when
    [child] is not a child of [chatBox]. *)
Definition removeChild (child : nat) (st : State) : option State :=
  if decide (child ∈ (chatBox st).*1)
  then Some (set_chatBox (filter (λ e, e.1 ≠ child) (chatBox st)) st)
  else None.

Definition focusout (st : State) : State :=
  set_lastCursorPosition (messageInput_selectionStart st) st.

Definition addCodeFromModal (st : State) : State :=
  let codeText := codeInput_value st in
  if decide (trim codeText = []) then st
  else
    let '(placeholder, counter) := mint Code (codeCounter st) in
    let st := set_codeCounter counter st in
    let st := set_placeholderMap (<[placeholder := codeText]> (placeholderMap st)) st in
    let st := insertPlaceholder placeholder (lastCursorPosition st) st in
    let st := set_codeInput_value [] st in
    set_codeModal_display (lit "none") st.

(** One turn of the loop of [handlePaste]. *)
Definition paste_item (st : State) (item : ClipboardItem) : State :=
  if includes (item_type item) (lit "image") then
    let blob := item_file item in
    let '(placeholder, counter) := mint Img (imgCounter st) in
    let st := set_imgCounter counter st in
    let tempUrl := createObjectURL blob in
    let st := set_placeholderMap (<[placeholder := tempUrl]> (placeholderMap st)) st in
    let st := insertPlaceholder placeholder (messageInput_selectionStart st) st in
    addImagePreview tempUrl placeholder st
  else st.

Definition handlePaste (items : list ClipboardItem) (st : State) : State :=
  foldl paste_item st items.

Definition reset (st : State) : State :=
  set_imagePreviewContainer []
    (set_imgCounter 1 (set_codeCounter 1 (set_placeholderMap ∅ st))).

(** [sendMessage] up to [await fetch]: the state, and the identity of
    the "Thinking..." message when a request was issued. *)
Definition sendMessage (st : State) : State * option nat :=
  let messageText := trim (messageInput_value st) in
  if decide (messageText = []) then (st, None)
  else
    let st := if isFocusMode st then exitFocusMode st else st in
    let st := (appendMessage (Some messageText) (lit "user") st).2 in
    let st := assign_value [] st in
    let '(thinkingMessage, st) := appendMessage (Some (lit "Thinking...")) (lit "bot") st in
    let st := set_fetched
      (fetched st ++ [Generate (lit "http://localhost:8000/generate") messageText
                        (placeholderMap st) (categorySelect_value st)]) st in
    (st, Some thinkingMessage).

(** How a call ends: it returns, or an exception escapes it. *)
Inductive Completion :=
  | Returned (st : State)
  | Threw (st : State).

Definition final (c : Completion) : State :=
  match c with Returned st | Threw st => st end.

(** The [catch] block and the lines after it. *)
Definition catch_block (thinkingMessage : nat) (message : jsstring)
    (st : State) : Completion :=
  match removeChild thinkingMessage st with
  | None => Threw st
  | Some st =>
      let st := (appendMessage (Some (lit "Error: " ++ message)) (lit "bot") st).2 in
      Returned (reset st)
  end.

(** [sendMessage] from the outcome of [fetch] to its end. *)
Definition sendMessage_resume (thinkingMessage : nat) (o : FetchOutcome)
    (st : State) : Completion :=
  match o with
  | Rejected message => catch_block thinkingMessage message st
  | Responded r =>
      match removeChild thinkingMessage st with
      | None => Threw st   (* thrown in [try], and again in [catch] *)
      | Some st =>
          if negb (ok r) then
            match body r with
            | Json errorData =>
                catch_block thinkingMessage
                  (or_else (detail errorData) (lit "An unknown error occurred.")) st
            | NotJson message => catch_block thinkingMessage message st
            end
          else
            match body r with
            | Json data =>
                let '(botMessage, st) :=
                  appendMessage (generated_text data) (lit "bot") st in
                let st := addDownloadButton botMessage (generated_text data) st in
                Returned (reset st)
            | NotJson message => catch_block thinkingMessage message st
            end
      end
  end.

(** The texts of the messages shown in the chat box. *)
Definition shown (st : State) : list jsstring :=
  (λ '(_, MessageEl _ text _), text) <$> chatBox st.

Inductive Event :=
  | TypeMessage (value : jsstring) (caret : nat)
  | TypeCode (value : jsstring)
  | SelectCategory (value : jsstring)
  | FocusOut
  | ClickInput
  | ClickOverlay
  | OpenModal
  | CancelModal
  | AddCode
  | Paste (items : list ClipboardItem)
  | Send
  | SendSettled (thinkingMessage : nat) (o : FetchOutcome)
  | DownloadMarkdown.

Definition step (e : Event) (st : State) : State :=
  match e with
  | TypeMessage value caret =>
      set_messageInput_selectionStart (caret `min` length value)
        (set_messageInput_value value st)
  | TypeCode value => set_codeInput_value value st
  | SelectCategory value => set_categorySelect_value value st
  | FocusOut => focusout st
  | ClickInput => enterFocusMode st
  | ClickOverlay => exitFocusMode st
  | OpenModal => set_codeModal_display (lit "flex") st
  | CancelModal => set_codeModal_display (lit "none") st
  | AddCode => addCodeFromModal st
  | Paste items => handlePaste items st
  | Send => (sendMessage st).1
  | SendSettled thinkingMessage o => final (sendMessage_resume thinkingMessage o st)
  | DownloadMarkdown => downloadMarkdown st
  end.

Definition run (events : list Event) (st : State) : State :=
  foldl (λ st e, step e st) st events.

(** The image items of a paste, in order. *)
Definition image_items (items : list ClipboardItem) : list ClipboardItem :=
  filter (λ item, includes (item_type item) (lit "image") = true) items.

Definition caret_within (st : State) : Prop :=
  messageInput_selectionStart st ≤ length (messageInput_value st).

Definition ids_below (st : State) : Prop :=
  Forall (λ e, e.1 < next_node st) (chatBox st).

End ChatObjUrl.

(** * The form front end ([src/frontend2/script.js]) *)

Module Frontend2.

(** What a [.mapping-item] holds besides its header: a file input with
    its selected file and the [src] of its preview once there is one, or a
    textarea with its value and the text of its preview. *)
Inductive Field :=
  | FileInput (file : option Blob) (preview : option jsstring)
  | TextArea (value : jsstring) (preview : jsstring).

(** A [.mapping-item]: the text of its label, the [data-placeholder] of
    its field, and the field. *)
Record MappingItem := {
  label : jsstring;
  placeholder : jsstring;
  field : Field;
}.

Definition kind (item : MappingItem) : ptype :=
  match field item with FileInput _ _ => Img | TextArea _ _ => Code end.

#[projections(primitive)] Record State := mkState {
  promptEl_value : jsstring;
  categoryEl_value : jsstring;
  mappingsContainer : list MappingItem;
  generateBtn_disabled : bool;
  outputEl_textContent : jsstring;
  downloadZipBtn_disabled : bool;
  downloadDocxBtn_disabled : bool;
  imageCounter : N;
  codeCounter : N;
  currentSessionId : jsvalue;
  fetched : list Request;
  alerts : list jsstring;
  saved : list jsstring;
}.

(** One update per field: [set_f v st] is [st] with field [f] set to [v]. *)
Definition set_promptEl_value (v : jsstring) (st : State) : State :=
  let 'mkState _ b c d e f g h i j k l m := st in
  mkState v b c d e f g h i j k l m.

Definition set_categoryEl_value (v : jsstring) (st : State) : State :=
  let 'mkState a _ c d e f g h i j k l m := st in
  mkState a v c d e f g h i j k l m.

Definition set_mappingsContainer (v : list MappingItem) (st : State) : State :=
  let 'mkState a b _ d e f g h i j k l m := st in
  mkState a b v d e f g h i j k l m.

Definition set_generateBtn_disabled (v : bool) (st : State) : State :=
  let 'mkState a b c _ e f g h i j k l m := st in
  mkState a b c v e f g h i j k l m.

Definition set_outputEl_textContent (v : jsstring) (st : State) : State :=
  let 'mkState a b c d _ f g h i j k l m := st in
  mkState a b c d v f g h i j k l m.

Definition set_downloadZipBtn_disabled (v : bool) (st : State) : State :=
  let 'mkState a b c d e _ g h i j k l m := st in
  mkState a b c d e v g h i j k l m.

Definition set_downloadDocxBtn_disabled (v : bool) (st : State) : State :=
  let 'mkState a b c d e f _ h i j k l m := st in
  mkState a b c d e f v h i j k l m.

Definition set_imageCounter (v : N) (st : State) : State :=
  let 'mkState a b c d e f g _ i j k l m := st in
  mkState a b c d e f g v i j k l m.

Definition set_codeCounter (v : N) (st : State) : State :=
  let 'mkState a b c d e f g h _ j k l m := st in
  mkState a b c d e f g h v j k l m.

Definition set_currentSessionId (v : jsvalue) (st : State) : State :=
  let 'mkState a b c d e f g h i _ k l m := st in
  mkState a b c d e f g h i v k l m.

Definition set_fetched (v : list Request) (st : State) : State :=
  let 'mkState a b c d e f g h i j _ l m := st in
  mkState a b c d e f g h i j v l m.

Definition set_alerts (v : list jsstring) (st : State) : State :=
  let 'mkState a b c d e f g h i j k _ m := st in
  mkState a b c d e f g h i j k v m.

Definition set_saved (v : list jsstring) (st : State) : State :=
  let 'mkState a b c d e f g h i j k l _ := st in
  mkState a b c d e f g h i j k l v.

(** The state when the script has run its top level, on a page with no
    mapping yet and the download buttons disabled. *)
Definition init : State :=
  {| promptEl_value := []; categoryEl_value := []; mappingsContainer := [];
     generateBtn_disabled := false; outputEl_textContent := [];
     downloadZipBtn_disabled := true; downloadDocxBtn_disabled := true;
     imageCounter := 1; codeCounter := 1; currentSessionId := None;
     fetched := []; alerts := []; saved := [] |}.

(** Every field's [data-placeholder] is a token of the item's type. *)
Definition well_formed (items : list MappingItem) : Prop :=
  Forall (λ item, ∃ n, placeholder item = token (kind item) n) items.

(** The items of a type, in document order. *)
Definition of_type (t : ptype) (items : list MappingItem) : list MappingItem :=
  filter (λ item, kind item = t) items.

Definition API_URL : jsstring := lit "http://127.0.0.1:8000".

Definition counter_of (t : ptype) (st : State) : N :=
  match t with Img => imageCounter st | Code => codeCounter st end.

Definition set_counter (t : ptype) (v : N) (st : State) : State :=
  match t with Img => set_imageCounter v st | Code => set_codeCounter v st end.

(** The [forEach] of [reindexPlaceholders] from a value of [counter]: an
    item whose field's [data-placeholder] starts with the prefix gets the
    next token as label and as [data-placeholder]. *)
Fixpoint reindex_items (t : ptype) (counter : N) (items : list MappingItem)
  : list MappingItem * N :=
  match items with
  | [] => ([], counter)
  | item :: items' =>
      if startsWith (placeholder item) (lit "[[" ++ type_name t) then
        let '(newPlaceholder, counter) := mint t counter in
        let '(items', counter) := reindex_items t counter items' in
        ({| label := newPlaceholder; placeholder := newPlaceholder;
            field := field item |} :: items', counter)
      else
        let '(items', counter) := reindex_items t counter items' in
        (item :: items', counter)
  end.

Definition reindexPlaceholders (t : ptype) (st : State) : State :=
  let '(items, counter) := reindex_items t 1 (mappingsContainer st) in
  set_counter t counter (set_mappingsContainer items st).

(** The click listeners of [addImageBtn] and [addCodeBtn]. *)
Definition addBtn_click (t : ptype) (st : State) : State :=
  let '(placeholder, counter) := mint t (counter_of t st) in
  let st := set_counter t counter st in
  let item :=
    {| label := placeholder; placeholder := placeholder;
       field := match t with
                | Img => FileInput None None
                | Code => TextArea [] []
                end |} in
  set_mappingsContainer (mappingsContainer st ++ [item]) st.

(** The click listener of the delete button of the [i]-th item. *)
Definition deleteBtn_click (i : nat) (st : State) : State :=
  match mappingsContainer st !! i with
  | Some item =>
      reindexPlaceholders (kind item)
        (set_mappingsContainer (delete i (mappingsContainer st)) st)
  | None => st
  end.

(** The [change] listener of the file input of the [i]-th item, after the
    user's choice [file]. *)
Definition input_change (i : nat) (file : option Blob) (st : State) : State :=
  set_mappingsContainer
    (alter (λ item,
       match field item with
       | FileInput _ _ =>
           {| label := label item; placeholder := placeholder item;
              field := FileInput file
                         (Some (from_option createObjectURL [] file)) |}
       | TextArea _ _ => item
       end) i (mappingsContainer st)) st.

(** The [input] listener of the textarea of the [i]-th item, after the
    user's edit to [value]. *)
Definition textarea_input (i : nat) (value : jsstring) (st : State) : State :=
  set_mappingsContainer
    (alter (λ item,
       match field item with
       | TextArea _ _ =>
           {| label := label item; placeholder := placeholder item;
              field := TextArea value value |}
       | FileInput _ _ => item
       end) i (mappingsContainer st)) st.

(** [mappings] after the [forEach] over the textareas. *)
Definition textarea_mappings (items : list MappingItem)
  : gmap jsstring jsstring :=
  foldl (λ mappings item,
           match field item with
           | TextArea value _ => <[placeholder item := value]> mappings
           | FileInput _ _ => mappings
           end) ∅ items.

(** The file inputs that have a file, with their [data-placeholder]. *)
Definition selected_files (items : list MappingItem) : list (jsstring * Blob) :=
  omap (λ item,
          match field item with
          | FileInput (Some file) _ => Some (placeholder item, file)
          | _ => None
          end) items.

(** [el.textContent = v]: [undefined] and [null] set the empty text. *)
Definition textContent_of (v : jsvalue) : jsstring := default [] v.

(** The click listener of [generateBtn] up to [await fetch]; [true] when
    a request was issued.  A disabled button receives no click.  The
    files are read before the request is built; when one cannot be read
    the rejection, which has no [message], is caught. *)
Definition generateBtn_click (st : State) : State * bool :=
  if generateBtn_disabled st then (st, false)
  else
    let st := set_generateBtn_disabled true st in
    let st := set_outputEl_textContent (lit "Generating...") st in
    let prompt := promptEl_value st in
    let category := categoryEl_value st in
    let mappings := textarea_mappings (mappingsContainer st) in
    let files := selected_files (mappingsContainer st) in
    if forallb (λ m, blob_readable m.2) files then
      let mappings :=
        foldl (λ mappings m, <[m.1 := readAsDataURL m.2]> mappings)
          mappings files in
      (set_fetched
         (fetched st ++ [Generate (API_URL ++ lit "/generate") prompt mappings
                           category]) st, true)
    else
      let st := set_outputEl_textContent (lit "Error: undefined") st in
      (set_generateBtn_disabled false st, false).

(** ... and from the outcome of [fetch]. *)
Definition generateBtn_resume (o : FetchOutcome) (st : State) : State :=
  let failed message st :=
    set_outputEl_textContent (lit "Error: " ++ message) st in
  let st :=
    match o with
    | Rejected message => failed message st
    | Responded r =>
        match body r with
        | NotJson message => failed message st
        | Json result =>
            if negb (ok r) then
              failed (or_else (detail result) (lit "Failed to generate writeup.")) st
            else
              let st :=
                set_outputEl_textContent (textContent_of (generated_text result)) st in
              let st := set_currentSessionId (session_id result) st in
              let st := set_downloadZipBtn_disabled false st in
              set_downloadDocxBtn_disabled false st
        end
    end in
  set_generateBtn_disabled false st.

(** [handleDownload(url, fileName)] up to [await fetch]; [true] when a
    request was issued. *)
Definition handleDownload (url fileName : jsstring) (st : State) : State * bool :=
  match currentSessionId st with
  | Some (c :: s) =>
      (set_fetched
         (fetched st ++ [Export url (c :: s) (Some (outputEl_textContent st))]) st,
       true)
  | _ => (st, false)
  end.

(** ... and from the outcome of [fetch]. *)
Definition handleDownload_resume (fileName : jsstring) (o : FetchOutcome)
    (st : State) : State :=
  let failed message st :=
    set_alerts (alerts st ++ [lit "Error: " ++ message]) st in
  match o with
  | Rejected message => failed message st
  | Responded r =>
      if negb (ok r) then
        match body r with
        | NotJson message => failed message st
        | Json error => failed (or_else (detail error) (lit "Download failed")) st
        end
      else set_saved (saved st ++ [fileName]) st
  end.

Inductive Artifact := Package | Docx.

Definition export_url (a : Artifact) : jsstring :=
  match a with
  | Package => API_URL ++ lit "/download-package"
  | Docx => API_URL ++ lit "/download-docx"
  end.

Definition export_name (a : Artifact) : jsstring :=
  match a with Package => lit "writeup_package.zip" | Docx => lit "writeup.docx" end.

Definition downloadBtn_disabled (a : Artifact) (st : State) : bool :=
  match a with
  | Package => downloadZipBtn_disabled st
  | Docx => downloadDocxBtn_disabled st
  end.

(** The click listeners of [downloadZipBtn] and [downloadDocxBtn]. *)
Definition downloadBtn_click (a : Artifact) (st : State) : State * bool :=
  if downloadBtn_disabled a st then (st, false)
  else handleDownload (export_url a) (export_name a) st.

Inductive Event :=
  | TypePrompt (value : jsstring)
  | SelectCategory (value : jsstring)
  | AddMapping (t : ptype)
  | ChooseFile (i : nat) (file : option Blob)
  | TypeCode (i : nat) (value : jsstring)
  | Delete (i : nat)
  | GenerateClick
  | GenerateSettled (o : FetchOutcome)
  | DownloadClick (a : Artifact)
  | DownloadSettled (a : Artifact) (o : FetchOutcome).

Definition step (e : Event) (st : State) : State :=
  match e with
  | TypePrompt value => set_promptEl_value value st
  | SelectCategory value => set_categoryEl_value value st
  | AddMapping t => addBtn_click t st
  | ChooseFile i file => input_change i file st
  | TypeCode i value => textarea_input i value st
  | Delete i => deleteBtn_click i st
  | GenerateClick => (generateBtn_click st).1
  | GenerateSettled o => generateBtn_resume o st
  | DownloadClick a => (downloadBtn_click a st).1
  | DownloadSettled a o => handleDownload_resume (export_name a) o st
  end.

Definition run (events : list Event) (st : State) : State :=
  foldl (λ st e, step e st) st events.

(** No mapping yet and both counters at their first value. *)
Definition fresh (st : State) : Prop :=
  mappingsContainer st = [] ∧ imageCounter st = 1%N ∧ codeCounter st = 1%N.

(** The mappings of each type carry the tokens 1, 2, ... of the type in
    document order, as placeholder and as label, and each counter stands
    after the last of them. *)
Definition numbered (st : State) : Prop :=
  ∀ t, let items := of_type t (mappingsContainer st) in
       placeholder <$> items = tokens t 1 (length items) ∧
       label <$> items = tokens t 1 (length items) ∧
       counter_of t st = N.of_nat (S (length items)).

Definition deletes (e : Event) : bool :=
  match e with Delete _ => true | _ => false end.

(** How many mappings of a type the events add. *)
Definition adds (t : ptype) (events : list Event) : nat :=
  length (omap (λ e, match e with
                     | AddMapping t' => if decide (t' = t) then Some t' else None
                     | _ => None
                     end) events).


(** The preview of a mapping mirrors its field: a code preview shows the
    textarea's value; an image preview, once created, shows the object URL
    of the selected file, or nothing when the selection was cleared. *)
Definition mirrored (item : MappingItem) : Prop :=
  match field item with
  | TextArea value preview => preview = value
  | FileInput file None => file = None
  | FileInput file (Some src) => src = from_option createObjectURL [] file
  end.

(** The events that end a generation request, and those that end it with
    success. *)
Definition settles (e : Event) : bool :=
  match e with GenerateSettled _ => true | _ => false end.

Definition succeeds (e : Event) : bool :=
  match e with
  | GenerateSettled (Responded r) =>
      ok r && match body r with Json _ => true | NotJson _ => false end
  | _ => false
  end.

End Frontend2.

(** * Properties *)

(** ** Strings *)

Lemma substring_take (s : jsstring) (n : nat) : substring s 0 n = take n s.
Proof.
  unfold substring. rewrite Nat.min_0_l, Nat.max_0_l, Nat.min_0_l, Nat.sub_0_r, drop_0.
  destruct (decide (n ≤ length s)).
  - by rewrite Nat.min_l.
  - rewrite Nat.min_r by lia. rewrite !take_ge; [done|lia..].
Qed.

Lemma substring_from_drop (s : jsstring) (n : nat) : substring_from s n = drop n s.
Proof.
  unfold substring_from, substring. rewrite Nat.min_id.
  destruct (decide (n ≤ length s)).
  - rewrite (Nat.min_l n) by done. rewrite Nat.max_r, Nat.min_l by done.
    apply take_ge. rewrite length_drop. lia.
  - rewrite (Nat.min_r n) by lia. rewrite Nat.max_id, Nat.min_id, Nat.sub_diag.
    by rewrite !drop_ge by lia.
Qed.

Lemma substring_middle (a b c : jsstring) :
  substring (a ++ b ++ c) (length a) (length a + length b) = b.
Proof.
  unfold substring. rewrite !length_app.
  rewrite (Nat.min_l (length a)) by lia.
  rewrite (Nat.min_l (length a + length b)) by lia.
  rewrite Nat.max_r, Nat.min_l by lia.
  rewrite drop_app_length.
  replace (length a + length b - length a) with (length b) by lia.
  by rewrite take_app_length.
Qed.

(** What [insertAt] computes at a caret offset inside the text. *)
Lemma insertAt_splice (text placeholder : jsstring) (position : nat) :
  position ≤ length text →
  let result := (insertAt text placeholder position).1 in
  result = take position text ++ placeholder ++ drop position text ∧
  length result = length text + length placeholder ∧
  substring result position (position + length placeholder) = placeholder ∧
  substring result 0 position = substring text 0 position ∧
  substring_from result (position + length placeholder)
    = substring_from text position.
Proof.
  intros Hpos. cbn [insertAt fst]. rewrite substring_take, substring_from_drop.
  assert (Hlen : length (take position text) = position)
    by (rewrite length_take; lia).
  split_and!.
  - done.
  - rewrite !length_app, Hlen, length_drop. lia.
  - pose proof (substring_middle (take position text) placeholder
      (drop position text)) as H.
    by rewrite Hlen in H.
  - rewrite !substring_take, take_app_le by lia.
    rewrite take_take. f_equal. lia.
  - rewrite !substring_from_drop, app_assoc, drop_app_ge
      by (rewrite length_app; lia).
    rewrite length_app, Hlen.
    replace (position + length placeholder - (position + length placeholder))
      with 0 by lia.
    done.
Qed.

Lemma trimStart_blank (s : jsstring) : blank s → trimStart s = [].
Proof. induction 1 as [|c s Hc _ IH]; simpl; [done|]. by rewrite Hc. Qed.

Lemma trimStart_nil (s : jsstring) : trimStart s = [] → blank s.
Proof.
  induction s as [|c s IH]; simpl; intros H.
  - apply Forall_nil_2.
  - destruct (is_whitespace c) eqn:Hc; [|done].
    apply Forall_cons_2; [done|by apply IH].
Qed.

Lemma trimStart_head (s : jsstring) (c : N) (s' : jsstring) :
  trimStart s = c :: s' → is_whitespace c = false.
Proof.
  induction s as [|d s IH]; simpl; [done|].
  destruct (is_whitespace d) eqn:Hd; [done|]. by intros [= <- _].
Qed.

Lemma trim_blank (s : jsstring) : trim s = [] ↔ blank s.
Proof.
  unfold trim. split.
  - intros H. apply (f_equal reverse) in H. rewrite reverse_involutive in H.
    cbn in H. apply trimStart_nil in H.
    destruct (trimStart s) as [|c s'] eqn:Hs; [by apply trimStart_nil|].
    apply trimStart_head in Hs.
    unfold blank in H. rewrite reverse_cons, Forall_app, Forall_singleton in H.
    destruct H as [_ H]. congruence.
  - intros H. by rewrite (trimStart_blank s H).
Qed.

(** ** Tokens *)

Global Instance lit_inj : Inj (=) (=) lit.
Proof.
  intros s1 s2 H. unfold lit in H.
  rewrite <-(String.string_of_list_ascii_of_string s1),
          <-(String.string_of_list_ascii_of_string s2).
  f_equal. revert H. generalize (String.list_ascii_of_string s1).
  generalize (String.list_ascii_of_string s2). intros l2 l1.
  revert l2. induction l1 as [|a l1 IH]; intros [|b l2]; simpl; try done.
  intros [= Hab Hl]. f_equal; [|by apply IH].
  rewrite <-(Ascii.ascii_N_embedding a), <-(Ascii.ascii_N_embedding b).
  by rewrite Hab.
Qed.

Global Instance decimal_inj : Inj (=) (=) decimal.
Proof. intros n m H. unfold decimal in H. by apply (inj pretty), (inj lit). Qed.

Global Instance token_inj t : Inj (=) (=) (token t).
Proof.
  intros n m H. unfold token in H.
  apply (inj decimal). by repeat first [apply app_inv_head in H | apply app_inv_tail in H].
Qed.

Lemma token_type_ne (n m : N) : token Img n ≠ token Code m.
Proof. intros H. apply (f_equal (take 3)) in H. by vm_compute in H. Qed.

Lemma token_eq (t t' : ptype) (n m : N) :
  token t n = token t' m → t = t' ∧ n = m.
Proof.
  destruct t, t'; intros H.
  - split; [done|]. by apply (inj (token Img)).
  - by apply token_type_ne in H.
  - symmetry in H. by apply token_type_ne in H.
  - split; [done|]. by apply (inj (token Code)).
Qed.

(** The prefix [reindexPlaceholders] looks for tells the types apart. *)
Lemma startsWith_token (t t' : ptype) (n : N) :
  startsWith (token t n) (lit "[[" ++ type_name t') = bool_decide (t = t').
Proof. destruct t, t'; by vm_compute. Qed.

Lemma NoDup_tokens (t : ptype) (first count : nat) : NoDup (tokens t first count).
Proof.
  apply NoDup_fmap_2; [|apply NoDup_seq].
  intros i j H. apply (inj (token t)) in H. lia.
Qed.

Lemma tokens_disjoint (first1 count1 first2 count2 : nat) (x : jsstring) :
  x ∈ tokens Img first1 count1 → x ∉ tokens Code first2 count2.
Proof.
  unfold tokens. rewrite !list_elem_of_fmap.
  intros (i & -> & _) (j & H & _). by apply token_type_ne in H.
Qed.

(** ** Splicing a token into the prompt *)

(** C1. For a position within the text, [insertPlaceholder] (the same in
    both chat scripts) is a pure splice: the new text is longer by the
    token's length, holds the token from [position] on, keeps the text
    before [position] and the text after it, and the caret offset it
    records and sets is [position + length token]. *)
Theorem insertPlaceholder_pure_splice (text placeholder : jsstring) (position : nat) :
  position ≤ length text →
  let result := (insertAt text placeholder position).1 in
  let caret := (insertAt text placeholder position).2 in
  (length result = length text + length placeholder ∧
   substring result position (position + length placeholder) = placeholder ∧
   substring result 0 position = substring text 0 position ∧
   substring_from result (position + length placeholder)
     = substring_from text position ∧
   caret = position + length placeholder) ∧
  (∀ st : Chat.State,
     let st' := Chat.insertPlaceholder placeholder position
                  (Chat.set_messageInput_value text st) in
     Chat.messageInput_value st' = result ∧
     Chat.lastCursorPosition st' = caret ∧
     Chat.messageInput_selectionStart st' = caret) ∧
  (∀ st : ChatObjUrl.State,
     let st' := ChatObjUrl.insertPlaceholder placeholder position
                  (ChatObjUrl.set_messageInput_value text st) in
     ChatObjUrl.messageInput_value st' = result ∧
     ChatObjUrl.lastCursorPosition st' = caret ∧
     ChatObjUrl.messageInput_selectionStart st' = caret).
Proof.
  intros Hpos result caret.
  destruct (insertAt_splice text placeholder position Hpos)
    as (Hres & Hlen & Hmid & Hpre & Hsuf).
  fold result in Hres, Hlen, Hmid, Hpre, Hsuf.
  assert (Hcaret : caret `min` length result = caret)
    by (subst caret; cbn [insertAt snd]; lia).
  split_and!; try done; intros st; cbn; fold result caret; by rewrite Hcaret.
Qed.

Lemma insertPlaceholder_pure_splice_witness :
  5 ≤ length (lit "flag: here") ∧
  length (insertAt (lit "flag: here") (lit "[[img1]]") 5).1
    = length (lit "flag: here") + length (lit "[[img1]]") ∧
  substring (insertAt (lit "flag: here") (lit "[[img1]]") 5).1 5
    (5 + length (lit "[[img1]]")) = lit "[[img1]]" ∧
  (insertAt (lit "flag: here") (lit "[[img1]]") 5).2 = 5 + length (lit "[[img1]]").
Proof.
  assert (H : 5 ≤ length (lit "flag: here")) by (vm_compute; lia).
  destruct (insertPlaceholder_pure_splice (lit "flag: here") (lit "[[img1]]") 5 H)
    as [(Hlen & Hmid & _ & _ & Hcaret) _].
  exact (conj H (conj Hlen (conj Hmid Hcaret))).
Defined.

(** ** Submissions that do nothing *)

(** C9. Submitting the code modal with an empty or white-space-only text
    leaves the whole state as it was, in both chat scripts: no entry is
    added, the code counter keeps its value, the prompt is untouched and
    no preview is created. *)
Theorem empty_code_submission_is_noop (codeText : jsstring) :
  blank codeText →
  (∀ st : Chat.State,
     Chat.addCodeFromModal (Chat.set_codeInput_value codeText st)
     = Chat.set_codeInput_value codeText st) ∧
  (∀ st : ChatObjUrl.State,
     ChatObjUrl.addCodeFromModal (ChatObjUrl.set_codeInput_value codeText st)
     = ChatObjUrl.set_codeInput_value codeText st).
Proof.
  intros Hblank%trim_blank. split; intros st.
  - unfold Chat.addCodeFromModal. cbn [Chat.codeInput_value Chat.set_codeInput_value].
    by rewrite decide_True.
  - unfold ChatObjUrl.addCodeFromModal.
    cbn [ChatObjUrl.codeInput_value ChatObjUrl.set_codeInput_value].
    by rewrite decide_True.
Qed.

Lemma empty_code_submission_is_noop_witness :
  blank (lit "  ") ∧
  Chat.addCodeFromModal (Chat.set_codeInput_value (lit "  ") Chat.init)
  = Chat.set_codeInput_value (lit "  ") Chat.init.
Proof.
  assert (H : blank (lit "  ")) by (repeat constructor).
  split; [exact H|].
  exact (proj1 (empty_code_submission_is_noop (lit "  ") H) Chat.init).
Defined.

(** C10. Sending a message whose text is empty or white-space-only issues
    no request and leaves the whole state as it was, in both chat scripts:
    the map, both counters and the previews are kept, the reset at the end
    of [sendMessage] not being reached. *)
Theorem empty_send_keeps_registry (text : jsstring) :
  blank text →
  (∀ st : Chat.State,
     Chat.sendMessage (Chat.set_messageInput_value text st)
     = (Chat.set_messageInput_value text st, None)) ∧
  (∀ st : ChatObjUrl.State,
     ChatObjUrl.sendMessage (ChatObjUrl.set_messageInput_value text st)
     = (ChatObjUrl.set_messageInput_value text st, None)).
Proof.
  intros Hblank%trim_blank. split; intros st.
  - unfold Chat.sendMessage.
    destruct (Chat.sendButton_disabled _) eqn:Hdis; [done|].
    cbn [Chat.messageInput_value Chat.set_messageInput_value
         Chat.set_sendButton_disabled].
    rewrite decide_True by done. f_equal.
    destruct st; cbn in *. by subst.
  - unfold ChatObjUrl.sendMessage.
    cbn [ChatObjUrl.messageInput_value ChatObjUrl.set_messageInput_value].
    by rewrite decide_True.
Qed.

Lemma empty_send_keeps_registry_witness :
  blank (lit " ") ∧
  (Chat.sendMessage (Chat.set_messageInput_value (lit " ") Chat.init)).2 = None.
Proof.
  assert (H : blank (lit " ")) by (repeat constructor).
  split; [exact H|].
  by rewrite (proj1 (empty_send_keeps_registry (lit " ") H) Chat.init).
Defined.

(** ** Renumbering on delete *)

Section reindex.
Import Frontend2.

Lemma of_type_cons (t : ptype) (item : MappingItem) (items : list MappingItem) :
  of_type t (item :: items)
  = if decide (kind item = t) then item :: of_type t items else of_type t items.
Proof.
  unfold of_type. destruct (decide _).
  - by rewrite filter_cons_True.
  - by rewrite filter_cons_False.
Qed.

Lemma of_type_app (t : ptype) (items1 items2 : list MappingItem) :
  of_type t (items1 ++ items2) = of_type t items1 ++ of_type t items2.
Proof. apply filter_app. Qed.

Lemma tokens_cons (t : ptype) (first count : nat) :
  tokens t first (S count) = token t (N.of_nat first) :: tokens t (S first) count.
Proof. done. Qed.

Lemma tokens_snoc (t : ptype) (first count : nat) :
  tokens t first (S count)
  = tokens t first count ++ [token t (N.of_nat (first + count))].
Proof. unfold tokens. by rewrite seq_S, fmap_app. Qed.

(** The loop of [reindexPlaceholders] on well-formed items: the items of
    the type get the tokens from [first] on, in order, as placeholder and
    as label; fields and the items of the other type are kept; and the
    counter ends after the last token given. *)
Lemma reindex_items_spec (t : ptype) (items : list MappingItem) (first : nat) :
  well_formed items →
  let result := reindex_items t (N.of_nat first) items in
  let count := length (of_type t items) in
  result.2 = N.of_nat (first + count) ∧
  field <$> result.1 = field <$> items ∧
  placeholder <$> of_type t result.1 = tokens t first count ∧
  label <$> of_type t result.1 = tokens t first count ∧
  (∀ t', t' ≠ t → of_type t' result.1 = of_type t' items) ∧
  well_formed result.1.
Proof.
  intros Hwf. revert first.
  induction Hwf as [|item items [n Hn] _ IH]; intros first.
  { cbn. split_and!; try done; [f_equal; lia|apply Forall_nil_2]. }
  cbn [reindex_items]. rewrite Hn, startsWith_token, of_type_cons.
  destruct (decide (kind item = t)) as [Hk|Hk].
  - rewrite bool_decide_eq_true_2 by done. cbn [mint].
    replace (N.of_nat first + 1)%N with (N.of_nat (S first)) by lia.
    specialize (IH (S first)).
    destruct (reindex_items t (N.of_nat (S first)) items) as [items' c].
    cbn [fst snd length] in *.
    destruct IH as (Hc & Hf & Hp & Hl & Ho & Hwf').
    assert (Hk' : kind {| label := token t (N.of_nat first);
                          placeholder := token t (N.of_nat first);
                          field := field item |} = t) by done.
    split_and!.
    + rewrite Hc. f_equal. lia.
    + cbn. by rewrite Hf.
    + rewrite of_type_cons, decide_True by done.
      rewrite fmap_cons, Hp, tokens_cons. done.
    + rewrite of_type_cons, decide_True by done.
      rewrite fmap_cons, Hl, tokens_cons. done.
    + intros t' Ht'. rewrite !of_type_cons, !decide_False by congruence. auto.
    + apply Forall_cons_2; [|done]. exists (N.of_nat first). by rewrite Hk'.
  - rewrite bool_decide_eq_false_2 by done.
    specialize (IH first).
    destruct (reindex_items t (N.of_nat first) items) as [items' c].
    cbn [fst snd] in *.
    destruct IH as (Hc & Hf & Hp & Hl & Ho & Hwf').
    split_and!; try done.
    + cbn. by rewrite Hf.
    + by rewrite of_type_cons, decide_False.
    + by rewrite of_type_cons, decide_False.
    + intros t' Ht'. rewrite !of_type_cons, Ho by done. done.
    + apply Forall_cons_2; [by exists n|done].
Qed.

Lemma well_formed_delete (i : nat) (items : list MappingItem) :
  well_formed items → well_formed (delete i items).
Proof. apply Forall_delete. Qed.

Lemma counter_of_set_counter (t t' : ptype) (v : N) (st : State) :
  counter_of t' (set_counter t v st) = if decide (t' = t) then v else counter_of t' st.
Proof. by destruct t, t'. Qed.

Lemma mappingsContainer_set_counter (t : ptype) (v : N) (st : State) :
  mappingsContainer (set_counter t v st) = mappingsContainer st.
Proof. by destruct t. Qed.

End reindex.

(** C2. Deleting a mapping renumbers the remaining mappings of its type,
    in document order, to [[<type>1]] ... [[<type>count]], as placeholder
    and as label, and sets that type's counter to [count + 1]; the
    mappings of the other type, the other counter and every field are left
    as they were. *)
Theorem delete_renumbers_same_type
    (st : Frontend2.State) (i : nat) (item : Frontend2.MappingItem) :
  Frontend2.well_formed (Frontend2.mappingsContainer st) →
  Frontend2.mappingsContainer st !! i = Some item →
  let t := Frontend2.kind item in
  let remaining := delete i (Frontend2.mappingsContainer st) in
  let count := length (Frontend2.of_type t remaining) in
  let st' := Frontend2.deleteBtn_click i st in
  let items' := Frontend2.mappingsContainer st' in
  Frontend2.placeholder <$> Frontend2.of_type t items' = tokens t 1 count ∧
  Frontend2.label <$> Frontend2.of_type t items' = tokens t 1 count ∧
  Frontend2.counter_of t st' = N.of_nat (count + 1) ∧
  Frontend2.field <$> items' = Frontend2.field <$> remaining ∧
  (∀ t', t' ≠ t →
     Frontend2.of_type t' items' = Frontend2.of_type t' remaining ∧
     Frontend2.counter_of t' st' = Frontend2.counter_of t' st).
Proof.
  intros Hwf Hi t remaining count st' items'.
  pose proof (reindex_items_spec t remaining 1 (well_formed_delete i _ Hwf))
    as (Hc & Hf & Hp & Hl & Ho & _).
  subst st' items'. unfold Frontend2.deleteBtn_click. rewrite Hi.
  unfold Frontend2.reindexPlaceholders.
  cbn [Frontend2.mappingsContainer Frontend2.set_mappingsContainer].
  fold t remaining. change 1%N with (N.of_nat 1).
  destruct (Frontend2.reindex_items t (N.of_nat 1) remaining) as [items c].
  cbn [fst snd] in *.
  rewrite mappingsContainer_set_counter, !counter_of_set_counter.
  cbn [Frontend2.mappingsContainer Frontend2.set_mappingsContainer].
  rewrite decide_True by done.
  split_and!; try done.
  - rewrite Hc. f_equal. lia.
  - intros t' Ht'. rewrite counter_of_set_counter, decide_False by done.
    split; [by apply Ho|]. by destruct t'.
Qed.

(** ** The registry of the chat front end, event by event *)

Section chat_registry.
Import Chat.

(** Only three kinds of events touch the registry: a completed read
    registers an image, a non-blank code submission registers a code
    block, and the end of a request resets everything. *)
Lemma step_registry (e : Event) (st : State) :
  registry (step e st)
  = match e with
    | ReaderLoad blob =>
        (<[token Img (imgCounter st) := readAsDataURL blob]> (placeholderMap st),
         (imgCounter st + 1)%N, codeCounter st,
         imagePreviewContainer st ++ [(readAsDataURL blob, token Img (imgCounter st))],
         codePreviewContainer st)
    | AddCode =>
        if decide (trim (codeInput_value st) = []) then registry st
        else
          (<[token Code (codeCounter st) := codeInput_value st]> (placeholderMap st),
           imgCounter st, (codeCounter st + 1)%N,
           imagePreviewContainer st,
           codePreviewContainer st ++ [(codeInput_value st, token Code (codeCounter st))])
    | SendSettled _ _ => (∅, 1%N, 1%N, [], [])
    | _ => registry st
    end.
Proof.
  destruct e; cbn [step]; try done.
  - unfold enterFocusMode. by destruct (isFocusMode st).
  - unfold exitFocusMode. by destruct (isFocusMode st).
  - unfold addCodeFromModal. cbv zeta. case_decide; reflexivity.
  - unfold sendMessage, exitFocusMode. destruct st. cbn -[lit trim].
    repeat case_match; simplify_eq/=; reflexivity.
  - unfold download. by repeat case_match.
  - unfold download_resume. by destruct succeeded.
Qed.

Lemma registry_eq (st : State) m i c images codes :
  registry st = (m, i, c, images, codes) →
  placeholderMap st = m ∧ imgCounter st = i ∧ codeCounter st = c ∧
  imagePreviewContainer st = images ∧ codePreviewContainer st = codes.
Proof.
  intros H. split_and!.
  - exact (f_equal (λ r, r.1.1.1.1) H).
  - exact (f_equal (λ r, r.1.1.1.2) H).
  - exact (f_equal (λ r, r.1.1.2) H).
  - exact (f_equal (λ r, r.1.2) H).
  - exact (f_equal (λ r, r.2) H).
Qed.

Lemma run_cons (e : Event) (events : list Event) (st : State) :
  run (e :: events) st = run events (step e st).
Proof. done. Qed.

Lemma fresh_numbered (st : State) : fresh st → numbered st.
Proof. unfold fresh, registry, numbered. intros [= _ -> -> -> ->]. done. Qed.

Lemma numbered_registry (st st' : State) :
  registry st' = registry st → numbered st →
  numbered st' ∧ imagePreviewContainer st' = imagePreviewContainer st.
Proof.
  unfold registry, numbered. intros [= _ Hic Hcc Hi Hc].
  by rewrite Hic, Hcc, Hi, Hc.
Qed.

Lemma step_numbered (e : Event) (st : State) :
  settles e = false → numbered st →
  numbered (step e st) ∧
  length (imagePreviewContainer (step e st))
  = length (imagePreviewContainer st) + length (loads [e]).
Proof.
  intros He Hst. pose proof (step_registry e st) as Hstep.
  assert (Hsame : registry (step e st) = registry st →
                  length (loads [e]) = 0 →
                  numbered (step e st) ∧
                  length (imagePreviewContainer (step e st))
                  = length (imagePreviewContainer st) + length (loads [e])).
  { intros H ->. destruct (numbered_registry _ _ H Hst) as [? ->]. split; [done|lia]. }
  destruct e; try done; try (by apply Hsame); cbn [step] in *.
  - case_decide; [by apply Hsame|]. clear Hsame.
    destruct Hst as (Hi & Hic & Hc & Hcc).
    apply registry_eq in Hstep as (_ & Hic' & Hcc' & Hi' & Hc').
    unfold numbered. rewrite Hic', Hcc', Hi', Hc'.
    rewrite fmap_app, length_app, Nat.add_1_r, tokens_snoc, Hc, Hcc.
    cbn [loads omap list_omap length]. split_and!; try done; try lia.
  - clear Hsame. destruct Hst as (Hi & Hic & Hc & Hcc).
    apply registry_eq in Hstep as (_ & Hic' & Hcc' & Hi' & Hc').
    unfold numbered. rewrite Hic', Hcc', Hi', Hc'.
    rewrite fmap_app, length_app, Nat.add_1_r, tokens_snoc, Hi, Hic.
    cbn [loads omap list_omap length]. split_and!; try done; try lia.
Qed.

Lemma run_numbered (events : list Event) (st : State) :
  Forall (λ e, settles e = false) events → numbered st →
  numbered (run events st) ∧
  length (imagePreviewContainer (run events st))
  = length (imagePreviewContainer st) + length (loads events).
Proof.
  intros Hev. revert st. induction Hev as [|e events He _ IH]; intros st Hst.
  { split; [done|]. cbn. lia. }
  rewrite run_cons. destruct (step_numbered e st He Hst) as [Hst' Hlen].
  destruct (IH _ Hst') as [Hn Hl]. split; [done|].
  rewrite Hl, Hlen. unfold loads. cbn [omap list_omap]. 
  destruct e; cbn; lia.
Qed.

End chat_registry.

(** ** The mappings of the form front end, event by event *)

Section form_mappings.
Import Frontend2.

Lemma numbered_well_formed (st : State) :
  numbered st → well_formed (mappingsContainer st).
Proof.
  intros Hn. apply Forall_forall. intros x Hx.
  destruct (Hn (kind x)) as (Hp & _ & _).
  assert (Hin : placeholder x ∈ placeholder <$> of_type (kind x) (mappingsContainer st)).
  { apply list_elem_of_fmap_2. by apply list_elem_of_filter. }
  rewrite Hp in Hin. apply list_elem_of_fmap in Hin as (i & Hi & _). eauto.
Qed.

Lemma of_type_alter {B} (g : MappingItem → B) (f : MappingItem → MappingItem)
    (t : ptype) (i : nat) (items : list MappingItem) :
  (∀ x, kind (f x) = kind x) → (∀ x, g (f x) = g x) →
  g <$> of_type t (alter f i items) = g <$> of_type t items.
Proof.
  intros Hk Hg. revert i. induction items as [|x items IH]; intros [|i]; try done.
  - cbn [alter list_alter]. rewrite !of_type_cons, Hk.
    case_decide; [|done]. by rewrite !fmap_cons, Hg.
  - cbn [alter list_alter]. rewrite !of_type_cons.
    case_decide; [|apply IH]. rewrite !fmap_cons. f_equal. apply IH.
Qed.

Lemma of_type_delete (t : ptype) (i : nat) (x : MappingItem)
    (items : list MappingItem) :
  items !! i = Some x → kind x ≠ t → of_type t (delete i items) = of_type t items.
Proof.
  revert i. induction items as [|y items IH]; intros [|i] Hi Hk; simplify_eq/=.
  - by rewrite of_type_cons, decide_False.
  - rewrite !of_type_cons. case_decide; [f_equal|]; eauto.
Qed.

(** What an event does to the mappings and the counters. *)
Lemma step_mappings (e : Event) (st : State) :
  match e with
  | AddMapping _ | ChooseFile _ _ | TypeCode _ _ | Delete _ => True
  | _ =>
      mappingsContainer (step e st) = mappingsContainer st ∧
      ∀ t, counter_of t (step e st) = counter_of t st
  end.
Proof.
  destruct e; try done; cbn [step];
    unfold generateBtn_click, generateBtn_resume, downloadBtn_click,
      handleDownload, handleDownload_resume;
    repeat case_match; (split; [reflexivity|intros []; reflexivity]).
Qed.

Lemma numbered_same (st st' : State) :
  mappingsContainer st' = mappingsContainer st →
  (∀ t, counter_of t st' = counter_of t st) →
  numbered st → numbered st'.
Proof. intros Hm Hc Hn t. rewrite Hm, Hc. apply Hn. Qed.

Lemma addBtn_click_mappings (t : ptype) (st : State) :
  mappingsContainer (addBtn_click t st)
  = mappingsContainer st
    ++ [{| label := token t (counter_of t st);
           placeholder := token t (counter_of t st);
           field := match t with Img => FileInput None None | Code => TextArea [] [] end |}] ∧
  ∀ t', counter_of t' (addBtn_click t st)
        = if decide (t' = t) then (counter_of t st + 1)%N else counter_of t' st.
Proof.
  unfold addBtn_click. cbn [mint].
  split; [by destruct t|]. intros t'. by destruct t, t'.
Qed.

(** Every event keeps the mappings numbered; without deletion the
    mappings of a type grow by those the event adds. *)
Lemma step_numbered_form (e : Event) (st : State) :
  numbered st →
  numbered (step e st) ∧
  (deletes e = false →
   ∀ t, length (of_type t (mappingsContainer (step e st)))
        = length (of_type t (mappingsContainer st)) + adds t [e]).
Proof.
  intros Hn. pose proof (step_mappings e st) as Hstep.
  assert (Hsame : ∀ st', mappingsContainer st' = mappingsContainer st →
                         (∀ t, counter_of t st' = counter_of t st) →
                         ∀ t, adds t [e] = 0 →
                         length (of_type t (mappingsContainer st'))
                         = length (of_type t (mappingsContainer st)) + adds t [e]).
  { intros st' -> _ t ->. lia. }
  destruct e; cbn beta iota in Hstep;
    try (lazymatch type of Hstep with True => fail | _ => idtac end;
         destruct Hstep as [Hm Hc]; split;
         [by eapply numbered_same|intros _ t; by apply Hsame]).
  - (* a mapping is added *)
    clear Hstep Hsame. cbn [step].
    destruct (addBtn_click_mappings t st) as [Hm Hc]. split.
    + intros t'. rewrite Hm, Hc, of_type_app, of_type_cons.
      destruct (Hn t') as (Hp & Hl & Hct).
      assert (Hk : ∀ l p, kind {| label := l; placeholder := p;
        field := match t with Img => FileInput None None | Code => TextArea [] [] end;
        |} = t) by (by destruct t).
      rewrite Hk. cbn zeta in *. destruct (decide (t' = t)) as [->|Hne].
      * rewrite decide_True by done.
        rewrite !fmap_app, length_app, Hp, Hl, Hct. cbn [length fmap list_fmap].
        rewrite Nat.add_1_r, tokens_snoc. split_and!; try done. lia.
      * rewrite decide_False by done.
        change (of_type t' []) with (@nil MappingItem). by rewrite app_nil_r.
    + intros _ t'. rewrite Hm, of_type_app, length_app. f_equal.
      unfold adds. cbn [omap list_omap]. rewrite of_type_cons.
      destruct t, t'; done.
  - (* a file is chosen *)
    clear Hstep. cbn [step]. unfold input_change.
    set (f := λ item : MappingItem, _).
    assert (Hk : ∀ x, kind (f x) = kind x).
    { intros x. unfold f, kind. destruct (field x) eqn:E; cbn; by rewrite ?E. }
    assert (Hp : ∀ x, placeholder (f x) = placeholder x).
    { intros x. unfold f. by destruct (field x) eqn:E. }
    assert (Hl : ∀ x, label (f x) = label x).
    { intros x. unfold f. by destruct (field x) eqn:E. }
    assert (Hlen : ∀ t, length (of_type t (alter f i (mappingsContainer st)))
                        = length (of_type t (mappingsContainer st))).
    { intros t. rewrite <-(length_fmap kind), of_type_alter by done.
      by rewrite length_fmap. }
    split.
    + intros t. cbn [mappingsContainer set_mappingsContainer].
      cbn zeta. rewrite Hlen, !of_type_alter by done.
      destruct (Hn t) as (? & ? & ?). split_and!; try done; by destruct t.
    + intros _ t. cbn [mappingsContainer set_mappingsContainer].
      rewrite Hlen. cbn. lia.
  - (* a code block is edited *)
    clear Hstep. cbn [step]. unfold textarea_input.
    set (f := λ item : MappingItem, _).
    assert (Hk : ∀ x, kind (f x) = kind x).
    { intros x. unfold f, kind. destruct (field x) eqn:E; cbn; by rewrite ?E. }
    assert (Hp : ∀ x, placeholder (f x) = placeholder x).
    { intros x. unfold f. by destruct (field x) eqn:E. }
    assert (Hl : ∀ x, label (f x) = label x).
    { intros x. unfold f. by destruct (field x) eqn:E. }
    assert (Hlen : ∀ t, length (of_type t (alter f i (mappingsContainer st)))
                        = length (of_type t (mappingsContainer st))).
    { intros t. rewrite <-(length_fmap kind), of_type_alter by done.
      by rewrite length_fmap. }
    split.
    + intros t. cbn [mappingsContainer set_mappingsContainer].
      cbn zeta. rewrite Hlen, !of_type_alter by done.
      destruct (Hn t) as (? & ? & ?). split_and!; try done; by destruct t.
    + intros _ t. cbn [mappingsContainer set_mappingsContainer].
      rewrite Hlen. cbn. lia.
  - (* a mapping is deleted *)
    clear Hstep Hsame. split; [|done]. cbn [step].
    destruct (mappingsContainer st !! i) as [item|] eqn:Hi;
      [|unfold deleteBtn_click; by rewrite Hi].
    unfold deleteBtn_click. rewrite Hi. unfold reindexPlaceholders.
    cbn [mappingsContainer set_mappingsContainer].
    pose proof (reindex_items_spec (kind item) (delete i (mappingsContainer st)) 1
                  (well_formed_delete i _ (numbered_well_formed st Hn)))
      as (Hc & _ & Hp & Hl & Ho & _).
    change (N.of_nat 1) with 1%N in *.
    destruct (reindex_items (kind item) 1 (delete i (mappingsContainer st)))
      as [items c].
    cbn [fst snd] in *. intros t. cbn zeta.
    rewrite mappingsContainer_set_counter, counter_of_set_counter.
    cbn [mappingsContainer set_mappingsContainer].
    destruct (decide (t = kind item)) as [->|Hne].
    + assert (Hlen : length (of_type (kind item) items)
                     = length (of_type (kind item) (delete i (mappingsContainer st)))).
      { rewrite <-(length_fmap placeholder), Hp. unfold tokens.
        by rewrite length_fmap, length_seq. }
      by rewrite Hlen, Hp, Hl, Hc.
    + rewrite Ho by done.
      rewrite (of_type_delete t i item) by done. apply Hn.
Qed.

Lemma run_cons_form (e : Event) (events : list Event) (st : State) :
  run (e :: events) st = run events (step e st).
Proof. done. Qed.

Lemma adds_cons (t : ptype) (e : Event) (events : list Event) :
  adds t (e :: events) = adds t [e] + adds t events.
Proof.
  unfold adds. cbn [omap list_omap]. by destruct (match e with AddMapping _ => _ | _ => _ end).
Qed.

Lemma run_numbered_form (events : list Event) (st : State) :
  numbered st →
  numbered (run events st) ∧
  (Forall (λ e, deletes e = false) events →
   ∀ t, length (of_type t (mappingsContainer (run events st)))
        = length (of_type t (mappingsContainer st)) + adds t events).
Proof.
  revert st. induction events as [|e events IH]; intros st Hst.
  { split; [done|]. intros _ t. unfold run, adds.
    cbn [foldl omap list_omap length]. lia. }
  rewrite run_cons_form. destruct (step_numbered_form e st Hst) as [Hst' Hlen].
  destruct (IH _ Hst') as [Hn Hl]. split; [done|].
  intros [He Hev]%Forall_cons t.
  specialize (Hl Hev t). specialize (Hlen He t). rewrite adds_cons. lia.
Qed.

Lemma fresh_numbered_form (st : State) : fresh st → numbered st.
Proof. intros (Hm & Hi & Hc) t. rewrite Hm. by destruct t. Qed.

End form_mappings.

(** ** Minting *)

Lemma of_type_permutation (items : list Frontend2.MappingItem) :
  items ≡ₚ Frontend2.of_type Img items ++ Frontend2.of_type Code items.
Proof.
  induction items as [|x items IH]; [done|].
  rewrite !of_type_cons. destruct (Frontend2.kind x) eqn:Hk.
  - rewrite decide_True, decide_False by done. cbn. by f_equiv.
  - rewrite decide_False, decide_True by done.
    rewrite <-Permutation_middle. by f_equiv.
Qed.

Lemma NoDup_tokens_app (n m : nat) : NoDup (tokens Img 1 n ++ tokens Code 1 m).
Proof.
  apply NoDup_app. split_and!; [apply NoDup_tokens| |apply NoDup_tokens].
  intros x. apply tokens_disjoint.
Qed.

(** C3. Without a reset in between, the tokens minted for images are
    [[img1]], [[img2]], ... in the order of the calls, those minted for code
    are [[code1]], [[code2]], ..., each counter stands at the number of the
    next token, and no token is given twice.  In the chat front end the
    tokens are read off the previews, which are appended by each call; in
    the form front end, where nothing is deleted in between, off the labels
    of the mappings. *)
Theorem minted_tokens_count_up
    (st : Chat.State) (events : list Chat.Event)
    (st2 : Frontend2.State) (events2 : list Frontend2.Event) :
  Chat.fresh st → Forall (λ e, Chat.settles e = false) events →
  Frontend2.fresh st2 → Forall (λ e, Frontend2.deletes e = false) events2 →
  let st' := Chat.run events st in
  let images := (Chat.imagePreviewContainer st').*2 in
  let codes := (Chat.codePreviewContainer st').*2 in
  let items := Frontend2.mappingsContainer (Frontend2.run events2 st2) in
  (images = tokens Img 1 (length (Chat.loads events)) ∧
   codes = tokens Code 1 (length codes) ∧
   NoDup (images ++ codes) ∧
   (∀ blob,
      (Chat.imagePreviewContainer (Chat.reader_onload blob st')).*2
      = images ++ [token Img (N.of_nat (S (length images)))]) ∧
   (∀ codeText, ¬ blank codeText →
      (Chat.codePreviewContainer
         (Chat.addCodeFromModal (Chat.set_codeInput_value codeText st'))).*2
      = codes ++ [token Code (N.of_nat (S (length codes)))])) ∧
  ((∀ t, Frontend2.label <$> Frontend2.of_type t items
         = tokens t 1 (Frontend2.adds t events2)) ∧
   NoDup (Frontend2.label <$> items)).
Proof.
  intros Hfresh Hev Hfresh2 Hev2 st' images codes items.
  destruct (run_numbered events st Hev (fresh_numbered st Hfresh))
    as [(Hi & Hic & Hc & Hcc) Hlen].
  fold st' in Hi, Hic, Hc, Hcc, Hlen.
  destruct (run_numbered_form events2 st2 (fresh_numbered_form st2 Hfresh2))
    as [Hn2 Hlen2].
  specialize (Hlen2 Hev2).
  assert (Hst : Chat.imagePreviewContainer st = [])
    by (by apply registry_eq in Hfresh as (_ & _ & _ & ? & _)).
  assert (Hst2 : Frontend2.mappingsContainer st2 = []) by apply Hfresh2.
  rewrite Hst in Hlen. cbn [length] in Hlen. rewrite Nat.add_0_l in Hlen.
  split; [split_and!|split].
  - subst images. by rewrite Hi, Hlen.
  - subst codes. by rewrite length_fmap.
  - subst images codes. rewrite Hi, Hc. apply NoDup_tokens_app.
  - intros blob. subst images. rewrite length_fmap, <-Hic.
    pose proof (step_registry (Chat.ReaderLoad blob) st') as Hstep.
    apply registry_eq in Hstep as (_ & _ & _ & Himg & _).
    cbn [Chat.step] in Himg. by rewrite Himg, fmap_app.
  - intros codeText Hcode. subst codes. rewrite length_fmap, <-Hcc.
    pose proof (step_registry Chat.AddCode
                  (Chat.set_codeInput_value codeText st')) as Hstep.
    cbn [Chat.step] in Hstep. rewrite decide_False in Hstep
      by (cbn [Chat.codeInput_value Chat.set_codeInput_value]; by rewrite trim_blank).
    apply registry_eq in Hstep as (_ & _ & _ & _ & Hcodes).
    by rewrite Hcodes, fmap_app.
  - intros t. destruct (Hn2 t) as (_ & Hl & _). fold items in Hl. cbn zeta in Hl.
    rewrite Hl. f_equal. subst items. rewrite Hlen2, Hst2. done.
  - subst items. rewrite (of_type_permutation (Frontend2.mappingsContainer _)), fmap_app.
    destruct (Hn2 Img) as (_ & -> & _). destruct (Hn2 Code) as (_ & -> & _).
    apply NoDup_tokens_app.
Qed.

Lemma minted_tokens_count_up_witness :
  let png := {| blob_readable := true; blob_type := lit "image/png";
                blob_base64 := lit "AAA"; blob_object_url := lit "x" |} in
  let events := [Chat.ReaderLoad png; Chat.TypeCode (lit "ls -la"); Chat.AddCode;
                 Chat.Send; Chat.ReaderLoad png] in
  let events2 := [Frontend2.AddMapping Img; Frontend2.AddMapping Code;
                  Frontend2.AddMapping Img] in
  (Chat.fresh Chat.init ∧ Forall (λ e, Chat.settles e = false) events ∧
   Frontend2.fresh Frontend2.init ∧
   Forall (λ e, Frontend2.deletes e = false) events2) ∧
  (Chat.imagePreviewContainer (Chat.run events Chat.init)).*2
  = [lit "[[img1]]"; lit "[[img2]]"] ∧
  Frontend2.label <$>
    Frontend2.of_type Img (Frontend2.mappingsContainer (Frontend2.run events2 Frontend2.init))
  = [lit "[[img1]]"; lit "[[img2]]"].
Proof.
  intros png events events2.
  assert (H1 : Chat.fresh Chat.init) by reflexivity.
  assert (H2 : Forall (λ e, Chat.settles e = false) events)
    by (repeat constructor).
  assert (H3 : Frontend2.fresh Frontend2.init) by (repeat split).
  assert (H4 : Forall (λ e, Frontend2.deletes e = false) events2)
    by (repeat constructor).
  destruct (minted_tokens_count_up Chat.init events Frontend2.init events2
              H1 H2 H3 H4) as [(Hi & _) [Hl _]].
  split; [done|]. split; [exact Hi|exact (Hl Img)].
Defined.

Lemma delete_renumbers_same_type_witness :
  let st := Frontend2.run [Frontend2.AddMapping Img; Frontend2.AddMapping Code;
                           Frontend2.AddMapping Img; Frontend2.AddMapping Img]
              Frontend2.init in
  let item := {| Frontend2.label := lit "[[img1]]";
                 Frontend2.placeholder := lit "[[img1]]";
                 Frontend2.field := Frontend2.FileInput None None |} in
  let st' := Frontend2.deleteBtn_click 0 st in
  (Frontend2.well_formed (Frontend2.mappingsContainer st) ∧
   Frontend2.mappingsContainer st !! 0 = Some item) ∧
  Frontend2.label <$> Frontend2.of_type Img (Frontend2.mappingsContainer st')
  = [lit "[[img1]]"; lit "[[img2]]"] ∧
  Frontend2.imageCounter st' = 3%N ∧
  Frontend2.codeCounter st' = 2%N.
Proof.
  intros st item st'.
  assert (H1 : Frontend2.well_formed (Frontend2.mappingsContainer st)).
  { apply numbered_well_formed, run_numbered_form, fresh_numbered_form.
    by repeat split. }
  assert (H2 : Frontend2.mappingsContainer st !! 0 = Some item) by reflexivity.
  destruct (delete_renumbers_same_type st 0 item H1 H2)
    as (_ & Hl & Hc & _ & Ho).
  split; [done|]. split; [exact Hl|]. split; [exact Hc|].
  exact (proj2 (Ho Code ltac:(done))).
Defined.

(** ** What the map holds *)

Section contents.

Lemma object_url_not_data_url (b : Blob) : ¬ is_data_url (createObjectURL b).
Proof.
  intros [b' H]. apply (f_equal (take 1)) in H. by vm_compute in H.
Qed.

Lemma images_are_data_urls_insert_img (m : gmap jsstring jsstring) (n : N) (b : Blob) :
  images_are_data_urls m →
  images_are_data_urls (<[token Img n := readAsDataURL b]> m).
Proof.
  intros Hm n' v. rewrite lookup_insert. case_decide.
  - intros [= <-]. by exists b.
  - apply Hm.
Qed.

Lemma images_are_data_urls_insert_code (m : gmap jsstring jsstring) (n : N)
    (v : jsstring) :
  images_are_data_urls m → images_are_data_urls (<[token Code n := v]> m).
Proof.
  intros Hm n' v'. rewrite lookup_insert_ne; [apply Hm|].
  intros H. symmetry in H. by apply token_type_ne in H.
Qed.

Lemma step_images_are_data_urls (e : Chat.Event) (st : Chat.State) :
  images_are_data_urls (Chat.placeholderMap st) →
  images_are_data_urls (Chat.placeholderMap (Chat.step e st)).
Proof.
  intros Hst. pose proof (step_registry e st) as Hstep.
  assert (Hsame : Chat.registry (Chat.step e st) = Chat.registry st →
                  images_are_data_urls (Chat.placeholderMap (Chat.step e st))).
  { intros H. by rewrite (f_equal (λ r, r.1.1.1.1) H : Chat.placeholderMap _ = _). }
  destruct e; try (by apply Hsame).
  - case_decide; [by apply Hsame|].
    apply registry_eq in Hstep as (-> & _).
    by apply images_are_data_urls_insert_code.
  - apply registry_eq in Hstep as (-> & _).
    by apply images_are_data_urls_insert_img.
  - apply registry_eq in Hstep as (-> & _). by intros n v.
Qed.

End contents.

(** C4, as the scripts have it.  In the chat front end that reads pasted
    images with a [FileReader], every entry under an image token holds a
    data URL, after any events; there a completed read stores the data URL
    of the pasted file under the fresh image token, and in both chat front
    ends a code submission stores the text of the code input under the
    fresh code token, exactly as it was entered. *)
Theorem registered_contents (st : Chat.State) (events : list Chat.Event) :
  images_are_data_urls (Chat.placeholderMap st) →
  images_are_data_urls (Chat.placeholderMap (Chat.run events st)) ∧
  (∀ blob,
     Chat.placeholderMap (Chat.reader_onload blob st)
     = <[token Img (Chat.imgCounter st) := readAsDataURL blob]>
         (Chat.placeholderMap st)) ∧
  (∀ codeText, ¬ blank codeText →
     Chat.placeholderMap
       (Chat.addCodeFromModal (Chat.set_codeInput_value codeText st))
     = <[token Code (Chat.codeCounter st) := codeText]> (Chat.placeholderMap st)) ∧
  (∀ (st2 : ChatObjUrl.State) codeText, ¬ blank codeText →
     ChatObjUrl.placeholderMap
       (ChatObjUrl.addCodeFromModal (ChatObjUrl.set_codeInput_value codeText st2))
     = <[token Code (ChatObjUrl.codeCounter st2) := codeText]>
         (ChatObjUrl.placeholderMap st2)).
Proof.
  intros Hst. split_and!.
  - revert st Hst. induction events as [|e events IH]; intros st Hst; [done|].
    rewrite run_cons. by apply IH, step_images_are_data_urls.
  - done.
  - intros codeText Hcode. unfold Chat.addCodeFromModal. cbv zeta.
    cbn [Chat.codeInput_value Chat.set_codeInput_value].
    by rewrite decide_False by (by rewrite trim_blank).
  - intros st2 codeText Hcode. unfold ChatObjUrl.addCodeFromModal.
    cbv zeta. cbn [ChatObjUrl.codeInput_value ChatObjUrl.set_codeInput_value].
    by rewrite decide_False by (by rewrite trim_blank).
Qed.

Lemma registered_contents_witness :
  let png := {| blob_readable := true; blob_type := lit "image/png";
                blob_base64 := lit "AAA"; blob_object_url := lit "x" |} in
  let events := [Chat.ReaderLoad png; Chat.TypeCode (lit "ls -la"); Chat.AddCode] in
  images_are_data_urls (Chat.placeholderMap Chat.init) ∧
  images_are_data_urls (Chat.placeholderMap (Chat.run events Chat.init)) ∧
  Chat.placeholderMap (Chat.run events Chat.init)
  = <[lit "[[code1]]" := lit "ls -la"]>
      (<[lit "[[img1]]" := lit "data:image/png;base64,AAA"]> ∅).
Proof.
  intros png events.
  assert (H : images_are_data_urls (Chat.placeholderMap Chat.init))
    by (intros n v; cbn [Chat.placeholderMap Chat.init]; by rewrite lookup_empty).
  split; [exact H|].
  split; [exact (proj1 (registered_contents Chat.init events H))|].
  reflexivity.
Defined.

(** The chat front end with object URLs registers the object URL of a pasted
    image, which is no data URL. *)
Lemma object_url_registered :
  let png := {| blob_readable := true; blob_type := lit "image/png";
                blob_base64 := lit "AAA"; blob_object_url := lit "x" |} in
  let st := ChatObjUrl.handlePaste
              [{| item_type := lit "image/png"; item_file := png |}]
              ChatObjUrl.init in
  ChatObjUrl.placeholderMap st !! lit "[[img1]]" = Some (lit "blob:x") ∧
  ¬ images_are_data_urls (ChatObjUrl.placeholderMap st).
Proof.
  intros png st.
  assert (H : ChatObjUrl.placeholderMap st !! token Img 1 = Some (createObjectURL png))
    by (vm_compute; reflexivity).
  split; [exact H|].
  intros Hinv. exact (object_url_not_data_url png (Hinv _ _ H)).
Qed.

(** ** The request and its response *)

Section responses.

Lemma last_fmap_snoc {A B} (f : A → B) (l : list A) (x : A) :
  last (f <$> l ++ [x]) = Some (f x).
Proof. by rewrite fmap_snoc, last_snoc. Qed.

Lemma shown_addDownloadButtons (messageElement : nat) (content : jsvalue)
    (st : Chat.State) :
  Chat.shown (Chat.addDownloadButtons messageElement content st) = Chat.shown st.
Proof.
  unfold Chat.shown, Chat.addDownloadButtons.
  cbn [Chat.chatBox Chat.set_chatBox].
  induction (Chat.chatBox st) as [|[id n] l IH]; [done|].
  rewrite fmap_cons. cbn [omap list_omap]. rewrite IH.
  destruct n; [case_decide|]; done.
Qed.

(** The message a failed response leaves in the chat front end. *)
Lemma sendMessage_resume_error (loadingAnimation : nat) (r : Response)
    (message : jsstring) (st : Chat.State) :
  Chat.try_block (Responded r) = inr message →
  last (Chat.chatBox (Chat.sendMessage_resume loadingAnimation (Responded r) st))
  = Some (Chat.next_node st,
          Chat.MessageEl (lit "bot") (lit "Error: " ++ message) []).
Proof.
  intros Htry. unfold Chat.sendMessage_resume. rewrite Htry.
  cbn -[lit filter]. by rewrite last_snoc.
Qed.

(** In the chat front end with object URLs, once the "Thinking..." message has been
    removed after the response arrived, the [catch] block cannot remove it
    again: the exception escapes and the reset is not reached. *)
Lemma catch_after_removal (thinkingMessage : nat) (message : jsstring)
    (st st' : ChatObjUrl.State) :
  ChatObjUrl.removeChild thinkingMessage st = Some st' →
  ChatObjUrl.catch_block thinkingMessage message st' = ChatObjUrl.Threw st'.
Proof.
  unfold ChatObjUrl.removeChild, ChatObjUrl.catch_block. case_decide; [|done].
  intros [= <-]. unfold ChatObjUrl.removeChild.
  rewrite decide_False; [done|]. cbn [ChatObjUrl.chatBox ChatObjUrl.set_chatBox].
  intros ((id & n) & Hid & Hin%list_elem_of_filter)%list_elem_of_fmap.
  cbn in *. by destruct Hin.
Qed.

Lemma sendMessage_resume_failure_throws (thinkingMessage : nat) (b : Body)
    (st st' : ChatObjUrl.State) :
  ChatObjUrl.removeChild thinkingMessage st = Some st' →
  ChatObjUrl.sendMessage_resume thinkingMessage
    (Responded {| ok := false; body := b |}) st = ChatObjUrl.Threw st'.
Proof.
  intros Hrm. unfold ChatObjUrl.sendMessage_resume. rewrite Hrm. cbn [ok body negb].
  destruct b; by eapply catch_after_removal.
Qed.

End responses.

(** C5, as the scripts have it.  On a success response with body
    [{session_id, generated_text}]: the form front end shows the generated
    text as the result and keeps the session identifier, enabling both
    downloads; the chat front end with sessions keeps the session
    identifier and shows "Done!", handing the generated text to the
    download buttons of that message; the chat front end with object URLs shows the
    generated text as a chat message, with its download button, and has no
    session identifier to keep. *)
Theorem success_response_handled
    (d : jsvalue) (s g : jsstring)
    (st : Chat.State) (loadingAnimation : nat)
    (st1 : ChatObjUrl.State) (thinkingMessage : nat)
    (st2 : Frontend2.State) :
  thinkingMessage ∈ (ChatObjUrl.chatBox st1).*1 →
  let o := Responded {| ok := true;
                        body := Json {| detail := d; session_id := Some s;
                                        generated_text := Some g |} |} in
  let st' := Chat.sendMessage_resume loadingAnimation o st in
  let st1' := ChatObjUrl.sendMessage_resume thinkingMessage o st1 in
  let st2' := Frontend2.generateBtn_resume o st2 in
  (Frontend2.outputEl_textContent st2' = g ∧
   Frontend2.currentSessionId st2' = Some s ∧
   Frontend2.downloadZipBtn_disabled st2' = false ∧
   Frontend2.downloadDocxBtn_disabled st2' = false) ∧
  (Chat.currentSessionId st' = Some s ∧
   last (Chat.chatBox st')
   = Some (Chat.next_node st, Chat.MessageEl (lit "bot") (lit "Done!") [Some g]) ∧
   Chat.shown st'
   = Chat.shown (Chat.hideLoadingAnimation loadingAnimation st) ++ [lit "Done!"]) ∧
  (∃ st1'', st1' = ChatObjUrl.Returned st1'' ∧
     last (ChatObjUrl.chatBox st1'')
     = Some (ChatObjUrl.next_node st1, ChatObjUrl.MessageEl (lit "bot") g [Some g])).
Proof.
  intros Hchild o st' st1' st2'. split_and!; try reflexivity.
  - assert (E : Chat.chatBox st'
                = Chat.chatBox
                    (Chat.addDownloadButtons (Chat.next_node st) (Some g)
                       (Chat.appendMessage (lit "Done!") (lit "bot")
                          (Chat.hideLoadingAnimation loadingAnimation st)).2))
      by reflexivity.
    rewrite E. unfold Chat.addDownloadButtons, Chat.appendMessage.
    cbn [snd Chat.chatBox Chat.set_chatBox Chat.set_next_node].
    rewrite last_fmap_snoc. by rewrite decide_True.
  - assert (E : Chat.shown st'
                = Chat.shown
                    (Chat.addDownloadButtons (Chat.next_node st) (Some g)
                       (Chat.appendMessage (lit "Done!") (lit "bot")
                          (Chat.hideLoadingAnimation loadingAnimation st)).2))
      by reflexivity.
    rewrite E, shown_addDownloadButtons. unfold Chat.shown, Chat.appendMessage.
    cbn [snd Chat.chatBox Chat.set_chatBox Chat.set_next_node].
    by rewrite omap_app.
  - subst st1'. unfold ChatObjUrl.sendMessage_resume, ChatObjUrl.removeChild.
    rewrite decide_True by done. eexists. split; [reflexivity|].
    unfold ChatObjUrl.addDownloadButton, ChatObjUrl.appendMessage, ChatObjUrl.reset.
    cbn [snd ChatObjUrl.chatBox ChatObjUrl.set_chatBox ChatObjUrl.set_next_node
         ChatObjUrl.set_imagePreviewContainer ChatObjUrl.set_imgCounter
         ChatObjUrl.set_codeCounter ChatObjUrl.set_placeholderMap
         ChatObjUrl.next_node generated_text].
    rewrite last_fmap_snoc. by rewrite decide_True.
Qed.

Lemma success_response_handled_witness :
  let st1 := (ChatObjUrl.sendMessage
                (ChatObjUrl.set_messageInput_value (lit "hi") ChatObjUrl.init)).1 in
  let o := Responded {| ok := true;
                        body := Json {| detail := None; session_id := Some (lit "s1");
                                        generated_text := Some (lit "## Solution") |} |} in
  1 ∈ (ChatObjUrl.chatBox st1).*1 ∧
  Frontend2.outputEl_textContent (Frontend2.generateBtn_resume o Frontend2.init)
  = lit "## Solution" ∧
  Frontend2.currentSessionId (Frontend2.generateBtn_resume o Frontend2.init)
  = Some (lit "s1") ∧
  Chat.currentSessionId (Chat.sendMessage_resume 1 o Chat.init) = Some (lit "s1").
Proof.
  intros st1 o.
  assert (H : 1 ∈ (ChatObjUrl.chatBox st1).*1) by (vm_compute; set_solver).
  destruct (success_response_handled None (lit "s1") (lit "## Solution")
              Chat.init 1 st1 1 Frontend2.init H)
    as ((Hout & Hsid & _) & (Hsid' & _) & _).
  exact (conj H (conj Hout (conj Hsid Hsid'))).
Defined.

(** In the chat front end with sessions the chat never shows the
    generated text: after "hi" is sent and answered with success, it shows
    "hi" and "Done!". *)
Lemma generated_text_not_shown :
  let sent := Chat.sendMessage (Chat.set_messageInput_value (lit "hi") Chat.init) in
  let o := Responded {| ok := true;
                        body := Json {| detail := None; session_id := Some (lit "s1");
                                        generated_text := Some (lit "## Solution") |} |} in
  let st' := Chat.sendMessage_resume 1 o sent.1 in
  sent.2 = Some 1 ∧
  Chat.shown st' = [lit "hi"; lit "Done!"] ∧
  lit "## Solution" ∉ Chat.shown st'.
Proof.
  intros sent o st'.
  assert (H : Chat.shown st' = [lit "hi"; lit "Done!"]) by (vm_compute; reflexivity).
  split; [reflexivity|]. split; [exact H|].
  rewrite H. intros Hin. apply list_elem_of_In in Hin.
  vm_compute in Hin. by destruct Hin as [|[|]].
Qed.

(** C6, as the scripts have it.  An export with no session identifier
    held issues no request; the chat front end alerts "No session ID found.
    Please generate a writeup first.", the form front end returns without
    any notice, leaving its whole state as it was. *)
Theorem export_without_session
    (st : Chat.State) (a : Chat.Artifact) (content : jsvalue)
    (st2 : Frontend2.State) (url fileName : jsstring) :
  let st0 := Chat.set_currentSessionId None st in
  let st' := (Chat.download a content st0).1 in
  let st20 := Frontend2.set_currentSessionId None st2 in
  (Chat.download a content st0).2 = false ∧
  Chat.fetched st' = Chat.fetched st ∧
  Chat.alerts st'
  = Chat.alerts st ++ [lit "No session ID found. Please generate a writeup first."] ∧
  Frontend2.handleDownload url fileName st20 = (st20, false).
Proof. done. Qed.

(** The form front end gives no notice when it refuses an export. *)
Lemma export_refused_silently :
  let st' := (Frontend2.handleDownload
                (Frontend2.export_url Frontend2.Package)
                (Frontend2.export_name Frontend2.Package) Frontend2.init).1 in
  Frontend2.currentSessionId Frontend2.init = None ∧
  st' = Frontend2.init ∧
  ¬ ∃ notice, Frontend2.alerts st' = Frontend2.alerts Frontend2.init ++ [notice].
Proof.
  cbn zeta. split_and!; try done. intros [notice H]. vm_compute in H. discriminate H.
Qed.

(** C7, as the scripts have it.  On a response that is not [ok]: when the
    body is a JSON object with a non-empty [detail], the message shown is
    "Error: " followed by that detail; when it is a JSON object whose
    [detail] is absent or empty, it is "Error: " followed by the script's
    fixed text; when the body is not JSON, the chat front end shows its
    fixed text again, and the form front end shows "Error: " followed by
    the message of the parsing error. *)
Theorem failure_response_message
    (st : Chat.State) (loadingAnimation : nat) (st2 : Frontend2.State)
    (c : N) (d : jsstring) (s g : jsvalue) (parsing : jsstring) :
  let failed b := Responded {| ok := false; body := b |} in
  let with_detail v := Json {| detail := v; session_id := s; generated_text := g |} in
  let chat b :=
    last (Chat.chatBox (Chat.sendMessage_resume loadingAnimation (failed b) st)) in
  let form b :=
    Frontend2.outputEl_textContent (Frontend2.generateBtn_resume (failed b) st2) in
  let bot text := Some (Chat.next_node st, Chat.MessageEl (lit "bot") text []) in
  (chat (with_detail (Some (c :: d))) = bot (lit "Error: " ++ c :: d) ∧
   form (with_detail (Some (c :: d))) = lit "Error: " ++ c :: d) ∧
  (chat (with_detail None) = bot (lit "Error: An unknown error occurred.") ∧
   chat (with_detail (Some [])) = bot (lit "Error: An unknown error occurred.") ∧
   form (with_detail None) = lit "Error: Failed to generate writeup." ∧
   form (with_detail (Some [])) = lit "Error: Failed to generate writeup.") ∧
  (chat (NotJson parsing) = bot (lit "Error: An unknown error occurred.") ∧
   form (NotJson parsing) = lit "Error: " ++ parsing).
Proof.
  intros failed with_detail chat form bot.
  split_and!; first [reflexivity | by apply sendMessage_resume_error].
Qed.

(** With an empty [detail] the chat front end does not show "Error: "
    followed by the detail, but its fixed text. *)
Lemma empty_detail_not_verbatim :
  let sent := Chat.sendMessage (Chat.set_messageInput_value (lit "hi") Chat.init) in
  let o := Responded {| ok := false;
                        body := Json {| detail := Some []; session_id := None;
                                        generated_text := None |} |} in
  let st' := Chat.sendMessage_resume 1 o sent.1 in
  sent.2 = Some 1 ∧
  last (Chat.shown st') = Some (lit "Error: An unknown error occurred.") ∧
  last (Chat.shown st') ≠ Some (lit "Error: " ++ []).
Proof.
  intros sent o st'.
  assert (H : last (Chat.shown st') = Some (lit "Error: An unknown error occurred."))
    by (vm_compute; reflexivity).
  split; [reflexivity|]. split; [exact H|].
  rewrite H. intros Heq. apply (inj Some), (f_equal length) in Heq.
  by vm_compute in Heq.
Qed.

(** ** The reset at the end of a request *)

(** In the chat front end with sessions the end of a request, whatever
    its outcome, empties the map, puts both counters back to 1 and clears
    both preview containers. *)
Lemma request_end_resets (loadingAnimation : nat) (o : FetchOutcome)
    (st : Chat.State) :
  Chat.registry (Chat.sendMessage_resume loadingAnimation o st)
  = (∅, 1%N, 1%N, [], []).
Proof. apply (step_registry (Chat.SendSettled loadingAnimation o) st). Qed.

(** In the chat front end with object URLs the reset is reached after a network
    failure and after a success response with a JSON body. *)
Lemma request_end_resets_obj_url (thinkingMessage : nat) (o : FetchOutcome)
    (st : ChatObjUrl.State) :
  thinkingMessage ∈ (ChatObjUrl.chatBox st).*1 →
  match o with
  | Rejected _ => True
  | Responded r => ok r = true ∧ ∃ data, body r = Json data
  end →
  ∃ st', ChatObjUrl.sendMessage_resume thinkingMessage o st = ChatObjUrl.Returned st' ∧
         ChatObjUrl.placeholderMap st' = ∅ ∧
         ChatObjUrl.imgCounter st' = 1%N ∧ ChatObjUrl.codeCounter st' = 1%N ∧
         ChatObjUrl.imagePreviewContainer st' = [].
Proof.
  intros Hchild Ho. unfold ChatObjUrl.sendMessage_resume, ChatObjUrl.catch_block,
    ChatObjUrl.removeChild.
  rewrite decide_True by done. destruct o as [message|[succeeded b]].
  - eexists. split; [reflexivity|done].
  - destruct Ho as [-> [data ->]]. cbn [ok body negb].
    eexists. split; [reflexivity|done].
Qed.

(** C8 at a failing input.  In the chat front end with object URLs, an image is
    pasted, the prompt is sent, and the service answers 404 with
    [{"detail": "rate limited"}]: the "Thinking..." message, removed when
    the response arrived, is removed again in [catch], which throws; no
    error is shown, and the map, the image counter and the preview stay as
    they were before the request. *)
Theorem failed_request_not_reset :
  let png := {| blob_readable := true; blob_type := lit "image/png";
                blob_base64 := lit "AAA"; blob_object_url := lit "x" |} in
  let st := ChatObjUrl.handlePaste
              [{| item_type := lit "image/png"; item_file := png |}]
              ChatObjUrl.init in
  let sent := ChatObjUrl.sendMessage st in
  let o := Responded {| ok := false;
                        body := Json {| detail := Some (lit "rate limited");
                                        session_id := None;
                                        generated_text := None |} |} in
  let result := ChatObjUrl.sendMessage_resume 1 o sent.1 in
  sent.2 = Some 1 ∧
  (∃ st', result = ChatObjUrl.Threw st') ∧
  ChatObjUrl.placeholderMap (ChatObjUrl.final result)
  = {[ lit "[[img1]]" := lit "blob:x" ]} ∧
  ChatObjUrl.imgCounter (ChatObjUrl.final result) = 2%N ∧
  ChatObjUrl.imagePreviewContainer (ChatObjUrl.final result)
  = [(lit "blob:x", lit "[[img1]]")] ∧
  ChatObjUrl.shown (ChatObjUrl.final result) = [lit "[[img1]]"].
Proof.
  intros png st sent o result.
  split; [by vm_compute|].
  split; [eexists; by vm_compute|].
  split_and!; by vm_compute.
Qed.

(** ** Sanity checks *)

Example token_img3 : token Img 3 = lit "[[img3]]".
Proof. by vm_compute. Qed.

Example token_code12 : token Code 12 = lit "[[code12]]".
Proof. by vm_compute. Qed.

Example substring_swaps : substring (lit "abcdef") 4 1 = lit "bcd".
Proof. by vm_compute. Qed.

Example substring_clamps : substring (lit "abc") 2 9 = lit "c".
Proof. by vm_compute. Qed.

Example trim_both_ends : trim (lit "  a b ") = lit "a b".
Proof. by vm_compute. Qed.

Example includes_image : includes (lit "image/png") (lit "image") = true.
Proof. by vm_compute. Qed.

Example includes_text : includes (lit "text/plain") (lit "image") = false.
Proof. by vm_compute. Qed.

(** Scenario C of the specification: two images pasted without moving
    the caret. *)
Example two_pastes :
  let png := {| blob_readable := true; blob_type := lit "image/png";
                blob_base64 := lit "AAA"; blob_object_url := lit "x" |} in
  let st := Chat.run [Chat.TypeMessage (lit "ab") 1; Chat.ReaderLoad png;
                      Chat.ReaderLoad png] Chat.init in
  Chat.messageInput_value st = lit "a[[img1]][[img2]]b" ∧
  Chat.messageInput_selectionStart st = 17.
Proof. split; by vm_compute. Qed.

(** A stale caret offset beyond the text still appends the token. *)
Example stale_caret :
  (insertAt (lit "ab") (lit "[[code1]]") 11).1 = lit "ab[[code1]]".
Proof. by vm_compute. Qed.

(** * Further properties of the form front end *)

Section form_more.
Import Frontend2.

Lemma fmap_eq_Forall {A B} (f g : A → B) (l : list A) :
  f <$> l = g <$> l → Forall (λ x, f x = g x) l.
Proof.
  induction l as [|x l IH]; [intros; apply Forall_nil_2|].
  rewrite !fmap_cons. intros [= Hx Hl]. apply Forall_cons_2; auto.
Qed.

Lemma numbered_NoDup (st : State) :
  numbered st → NoDup (placeholder <$> mappingsContainer st).
Proof.
  intros Hn. rewrite (of_type_permutation (mappingsContainer st)), fmap_app.
  destruct (Hn Img) as (-> & _). destruct (Hn Code) as (-> & _).
  apply NoDup_tokens_app.
Qed.

Lemma numbered_labels (st : State) :
  numbered st → Forall (λ item, label item = placeholder item) (mappingsContainer st).
Proof.
  intros Hn. apply Forall_forall. intros x Hx.
  destruct (Hn (kind x)) as (Hp & Hl & _). cbn zeta in *.
  assert (H : label <$> of_type (kind x) (mappingsContainer st)
              = placeholder <$> of_type (kind x) (mappingsContainer st))
    by congruence.
  apply fmap_eq_Forall in H. rewrite Forall_forall in H. apply H.
  by apply list_elem_of_filter.
Qed.

End form_more.

(** X1. In the form front end, whatever the user does from a page with no
    mapping (adding, deleting, editing, generating, downloading, in any
    order), the mappings of each type always carry [[<type>1]] ...
    [[<type>count]] in document order, each counter is [count + 1], every
    label equals its field's placeholder, and no placeholder occurs
    twice. *)
Theorem mappings_always_numbered
    (st : Frontend2.State) (events : list Frontend2.Event) :
  Frontend2.fresh st →
  let st' := Frontend2.run events st in
  let items := Frontend2.mappingsContainer st' in
  (∀ t, Frontend2.placeholder <$> Frontend2.of_type t items
        = tokens t 1 (length (Frontend2.of_type t items)) ∧
        Frontend2.counter_of t st'
        = N.of_nat (S (length (Frontend2.of_type t items)))) ∧
  Forall (λ item, Frontend2.label item = Frontend2.placeholder item) items ∧
  NoDup (Frontend2.placeholder <$> items).
Proof.
  intros Hfresh st' items.
  destruct (run_numbered_form events st (fresh_numbered_form st Hfresh)) as [Hn _].
  fold st' in Hn. split_and!.
  - intros t. destruct (Hn t) as (? & _ & ?). done.
  - by apply numbered_labels.
  - by apply numbered_NoDup.
Qed.

Lemma mappings_always_numbered_witness :
  let events := [Frontend2.AddMapping Img; Frontend2.AddMapping Code;
                 Frontend2.AddMapping Img; Frontend2.Delete 0;
                 Frontend2.AddMapping Img] in
  Frontend2.fresh Frontend2.init ∧
  Frontend2.placeholder <$>
    Frontend2.of_type Img
      (Frontend2.mappingsContainer (Frontend2.run events Frontend2.init))
  = [lit "[[img1]]"; lit "[[img2]]"] ∧
  NoDup (Frontend2.placeholder <$>
           Frontend2.mappingsContainer (Frontend2.run events Frontend2.init)).
Proof.
  intros events.
  assert (H : Frontend2.fresh Frontend2.init) by (repeat split).
  destruct (mappings_always_numbered Frontend2.init events H) as (Hn & _ & Hd).
  split; [exact H|]. split; [exact (proj1 (Hn Img))|exact Hd].
Defined.

Section form_request.
Import Frontend2.








End form_request.



Section form_latch.
Import Frontend2.

Lemma generations_snoc_export (requests : list Request) url session content :
  generations (requests ++ [Export url session content]) = generations requests.
Proof. unfold generations. rewrite omap_app. cbn. by rewrite app_nil_r. Qed.

Lemma exports_snoc_generate (requests : list Request) url prompt mappings category :
  exports (requests ++ [Generate url prompt mappings category]) = exports requests.
Proof. unfold exports. rewrite omap_app. cbn. by rewrite app_nil_r. Qed.

(** While a generation is in flight, no event but its end enables the
    button or issues another generation request. *)
Lemma step_in_flight (e : Event) (st : State) :
  settles e = false → generateBtn_disabled st = true →
  generateBtn_disabled (step e st) = true ∧
  generations (fetched (step e st)) = generations (fetched st).
Proof.
  intros He Hdis. destruct e as [v|v|t|i f|i v|i| |o|a|a o]; cbn [step];
    [done|done| |done|done| | |done| | ].
  - unfold addBtn_click. cbn [mint]. by destruct t.
  - unfold deleteBtn_click, reindexPlaceholders. destruct (_ !! _); [|done].
    destruct (reindex_items _ _ _) as [items c]. by destruct (kind _).
  - unfold generateBtn_click. by rewrite Hdis.
  - unfold downloadBtn_click, handleDownload.
    destruct (downloadBtn_disabled a st); [done|].
    destruct (currentSessionId st) as [[|c s]|]; try done.
    cbn [fst fetched set_fetched generateBtn_disabled].
    by rewrite generations_snoc_export.
  - unfold handleDownload_resume. by repeat case_match.
Qed.

End form_latch.

(** X3. In the form front end at most one generation is in flight: once a
    click on Generate has issued a request, the button stays disabled and
    no further generation request goes out, whatever else happens, until
    the request ends; the end of a request, whatever its outcome, enables
    the button again.  A click that issues no request (button disabled, or
    a selected file that cannot be read) makes no network call at all. *)
Theorem generate_one_in_flight
    (st : Frontend2.State) (events : list Frontend2.Event) :
  (Frontend2.generateBtn_click st).2 = true →
  Forall (λ e, Frontend2.settles e = false) events →
  let st1 := (Frontend2.generateBtn_click st).1 in
  let st' := Frontend2.run events st1 in
  Frontend2.generateBtn_disabled st' = true ∧
  generations (Frontend2.fetched st') = generations (Frontend2.fetched st1) ∧
  (Frontend2.generateBtn_click st').2 = false ∧
  (∀ o, Frontend2.generateBtn_disabled (Frontend2.generateBtn_resume o st') = false) ∧
  (∀ st0, (Frontend2.generateBtn_click st0).2 = false →
          Frontend2.fetched (Frontend2.generateBtn_click st0).1
          = Frontend2.fetched st0).
Proof.
  intros Hissued Hev st1 st'.
  assert (Hst1 : Frontend2.generateBtn_disabled st1 = true).
  { subst st1. revert Hissued. unfold Frontend2.generateBtn_click.
    destruct (Frontend2.generateBtn_disabled st); [done|]. cbv zeta.
    by destruct (forallb _ _). }
  assert (Hrun : Frontend2.generateBtn_disabled st' = true ∧
                 generations (Frontend2.fetched st')
                 = generations (Frontend2.fetched st1)).
  { subst st'. clear Hissued. revert Hst1. generalize st1. clear st1.
    induction Hev as [|e events He _ IH]; intros st1 Hst1; [done|].
    rewrite run_cons_form.
    destruct (step_in_flight e st1 He Hst1) as [Hdis Hgen].
    destruct (IH _ Hdis) as [? ?]. split; [done|congruence]. }
  destruct Hrun as [Hdis Hgen]. split_and!; try done.
  - unfold Frontend2.generateBtn_click. by rewrite Hdis.
  - intros st0. unfold Frontend2.generateBtn_click.
    destruct (Frontend2.generateBtn_disabled st0); [done|]. cbv zeta.
    destruct (forallb _ _); [done|]. reflexivity.
Qed.

Lemma generate_one_in_flight_witness :
  let st := Frontend2.run [Frontend2.TypePrompt (lit "notes")] Frontend2.init in
  let events := [Frontend2.GenerateClick; Frontend2.AddMapping Img;
                 Frontend2.GenerateClick] in
  ((Frontend2.generateBtn_click st).2 = true ∧
   Forall (λ e, Frontend2.settles e = false) events) ∧
  length (generations
            (Frontend2.fetched
               (Frontend2.run events (Frontend2.generateBtn_click st).1)))
  = 1.
Proof.
  intros st events.
  assert (H1 : (Frontend2.generateBtn_click st).2 = true) by reflexivity.
  assert (H2 : Forall (λ e, Frontend2.settles e = false) events)
    by (repeat constructor).
  destruct (generate_one_in_flight st events H1 H2) as (_ & Hgen & _).
  split; [done|]. by rewrite Hgen.
Defined.

Section form_sessions.
Import Frontend2.

Lemma step_exports_form (e : Event) (st : State) :
  exports (fetched (step e st)) = exports (fetched st) ∨
  ∃ c s content,
    currentSessionId st = Some (c :: s) ∧
    exports (fetched (step e st)) = exports (fetched st) ++ [(c :: s, content)].
Proof.
  destruct e as [v|v|t|i f|i v|i| |o|a|a o]; cbn [step];
    [by left|by left| |by left|by left| | | | | ].
  - left. unfold addBtn_click. cbn [mint]. by destruct t.
  - left. unfold deleteBtn_click, reindexPlaceholders. destruct (_ !! _); [|done].
    destruct (reindex_items _ _ _) as [items c]. by destruct (kind _).
  - left. unfold generateBtn_click. destruct (generateBtn_disabled st); [done|].
    cbv zeta. destruct (forallb _ _); [|done].
    cbn [fst fetched set_fetched]. apply exports_snoc_generate.
  - left. unfold generateBtn_resume. by repeat case_match.
  - unfold downloadBtn_click, handleDownload.
    destruct (downloadBtn_disabled a st); [by left|].
    destruct (currentSessionId st) as [[|c s]|] eqn:Hs; try by left.
    right. exists c, s, (Some (outputEl_textContent st)). split; [done|].
    cbn [fst fetched set_fetched]. unfold exports. by rewrite omap_app.
  - left. unfold handleDownload_resume. by repeat case_match.
Qed.

Lemma step_session_form (e : Event) (st : State) :
  succeeds e = false →
  currentSessionId (step e st) = currentSessionId st ∧
  downloadZipBtn_disabled (step e st) = downloadZipBtn_disabled st ∧
  downloadDocxBtn_disabled (step e st) = downloadDocxBtn_disabled st.
Proof.
  intros He. destruct e as [v|v|t|i f|i v|i| |o|a|a o]; cbn [step];
    [done|done| |done|done| | | | | ].
  - unfold addBtn_click. cbn [mint]. by destruct t.
  - unfold deleteBtn_click, reindexPlaceholders. destruct (_ !! _); [|done].
    destruct (reindex_items _ _ _) as [items c]. by destruct (kind _).
  - unfold generateBtn_click. by repeat case_match.
  - unfold generateBtn_resume. destruct o as [message|[succeeded [message|result]]];
      try done. cbn in He. rewrite andb_true_r in He. cbn [ok body]. by rewrite He.
  - unfold downloadBtn_click, handleDownload. by repeat case_match.
  - unfold handleDownload_resume. by repeat case_match.
Qed.

End form_sessions.

(** X4. Exports of the form front end.  An export request always carries
    a non-empty session identifier.  The session identifier and the state
    of the two download buttons change only when a generation ends with a
    success response: failures, edits and downloads leave them as they
    were.  Hence, as long as no generation has succeeded since a state
    without session identifier, no export request is made at all. *)
Theorem form_exports_need_session
    (st : Frontend2.State) (events : list Frontend2.Event) :
  Forall (λ p, p.1 ≠ []) (exports (Frontend2.fetched st)) →
  let st' := Frontend2.run events st in
  Forall (λ p, p.1 ≠ []) (exports (Frontend2.fetched st')) ∧
  (Forall (λ e, Frontend2.succeeds e = false) events →
   Frontend2.currentSessionId st' = Frontend2.currentSessionId st ∧
   Frontend2.downloadZipBtn_disabled st' = Frontend2.downloadZipBtn_disabled st ∧
   Frontend2.downloadDocxBtn_disabled st' = Frontend2.downloadDocxBtn_disabled st ∧
   (Frontend2.currentSessionId st = None →
    exports (Frontend2.fetched st') = exports (Frontend2.fetched st))).
Proof.
  intros Hst st'. subst st'. split.
  - revert st Hst. induction events as [|e events IH]; intros st Hst; [done|].
    rewrite run_cons_form. apply IH.
    destruct (step_exports_form e st) as [->|(c & s & content & _ & ->)]; [done|].
    apply Forall_app. split; [done|]. by apply Forall_singleton.
  - clear Hst. intros Hev. revert st.
    induction Hev as [|e events He _ IH]; intros st; [done|].
    rewrite run_cons_form.
    destruct (step_session_form e st He) as (Hs & Hz & Hd).
    destruct (IH (Frontend2.step e st)) as (Hs' & Hz' & Hd' & Hex).
    split_and!; try congruence.
    intros Hnone. rewrite Hex by congruence.
    destruct (step_exports_form e st) as [->|(c & s & content & Hsome & _)];
      [done|congruence].
Qed.

Lemma form_exports_need_session_witness :
  let failed := Responded {| ok := false;
                             body := Json {| detail := Some (lit "rate limited");
                                             session_id := None;
                                             generated_text := None |} |} in
  let events := [Frontend2.GenerateClick; Frontend2.GenerateSettled failed;
                 Frontend2.DownloadClick Frontend2.Package] in
  (Forall (λ p, p.1 ≠ []) (exports (Frontend2.fetched Frontend2.init)) ∧
   Forall (λ e, Frontend2.succeeds e = false) events) ∧
  Frontend2.currentSessionId (Frontend2.run events Frontend2.init) = None ∧
  exports (Frontend2.fetched (Frontend2.run events Frontend2.init)) = [].
Proof.
  intros failed events.
  assert (H1 : Forall (λ p, p.1 ≠ []) (exports (Frontend2.fetched Frontend2.init)))
    by apply Forall_nil_2.
  assert (H2 : Forall (λ e, Frontend2.succeeds e = false) events)
    by (repeat constructor).
  destruct (form_exports_need_session Frontend2.init events H1) as [_ H].
  destruct (H H2) as (Hs & _ & _ & Hex).
  split; [done|]. split; [exact Hs|exact (Hex eq_refl)].
Defined.

Section form_previews.
Import Frontend2.

Lemma reindex_items_fields (t : ptype) (counter : N) (items : list MappingItem) :
  field <$> (reindex_items t counter items).1 = field <$> items.
Proof.
  revert counter. induction items as [|item items IH]; intros counter; [done|].
  cbn [reindex_items]. destruct (startsWith _ _).
  - cbn [mint]. specialize (IH (counter + 1)%N).
    destruct (reindex_items t (counter + 1)%N items) as [items' c].
    cbn [fst] in *. by rewrite !fmap_cons, IH.
  - specialize (IH counter). destruct (reindex_items t counter items) as [items' c].
    cbn [fst] in *. by rewrite !fmap_cons, IH.
Qed.

Lemma mirrored_fields (items items' : list MappingItem) :
  field <$> items' = field <$> items → Forall mirrored items → Forall mirrored items'.
Proof.
  revert items'. induction items as [|x items IH]; intros [|y items']; try done.
  rewrite !fmap_cons. intros [= Hy Hl] [Hx Hf]%Forall_cons.
  apply Forall_cons_2; [|by apply IH]. unfold mirrored in *. by rewrite Hy.
Qed.

Lemma step_mirrored (e : Event) (st : State) :
  Forall mirrored (mappingsContainer st) →
  Forall mirrored (mappingsContainer (step e st)).
Proof.
  intros Hst. pose proof (step_mappings e st) as Hstep.
  destruct e as [v|v|t|i f|i v|i| |o|a|a o]; cbn beta iota in Hstep;
    try (lazymatch type of Hstep with True => fail | _ => idtac end;
         destruct Hstep as [-> _]; exact Hst);
    clear Hstep; cbn [step].
  - destruct (addBtn_click_mappings t st) as [-> _].
    apply Forall_app. split; [done|]. apply Forall_singleton. by destruct t.
  - unfold input_change. cbn [mappingsContainer set_mappingsContainer].
    apply Forall_alter; [done|]. intros x _ Hx. unfold mirrored in *.
    destruct (field x) eqn:E; cbn; by rewrite ?E.
  - unfold textarea_input. cbn [mappingsContainer set_mappingsContainer].
    apply Forall_alter; [done|]. intros x _ Hx. unfold mirrored in *.
    destruct (field x) eqn:E; cbn; by rewrite ?E.
  - unfold deleteBtn_click. destruct (mappingsContainer st !! i) as [item|]; [|done].
    unfold reindexPlaceholders. cbn [mappingsContainer set_mappingsContainer].
    pose proof (reindex_items_fields (kind item) 1
                  (delete i (mappingsContainer st))) as Hf.
    destruct (reindex_items _ _ _) as [items c]. cbn [fst] in Hf.
    rewrite mappingsContainer_set_counter.
    cbn [mappingsContainer set_mappingsContainer].
    eapply mirrored_fields; [done|]. by apply Forall_delete.
Qed.

End form_previews.

(** X5. In the form front end every preview mirrors its field, whatever
    the user does: the preview of a code mapping shows the textarea's
    value; the preview image of an image mapping, once created, shows the
    object URL of the selected file, or nothing after the selection was
    cleared; renumbering and deleting other mappings never touch a field
    or its preview. *)
Theorem previews_mirror_fields
    (st : Frontend2.State) (events : list Frontend2.Event) :
  Forall Frontend2.mirrored (Frontend2.mappingsContainer st) →
  Forall Frontend2.mirrored
    (Frontend2.mappingsContainer (Frontend2.run events st)).
Proof.
  revert st. induction events as [|e events IH]; intros st Hst; [done|].
  rewrite run_cons_form. by apply IH, step_mirrored.
Qed.

Lemma previews_mirror_fields_witness :
  let png := {| blob_readable := true; blob_type := lit "image/png";
                blob_base64 := lit "AAA"; blob_object_url := lit "x" |} in
  let events := [Frontend2.AddMapping Img; Frontend2.AddMapping Code;
                 Frontend2.ChooseFile 0 (Some png);
                 Frontend2.TypeCode 1 (lit "ls -la"); Frontend2.ChooseFile 0 None;
                 Frontend2.AddMapping Img; Frontend2.Delete 0] in
  Forall Frontend2.mirrored (Frontend2.mappingsContainer Frontend2.init) ∧
  Forall Frontend2.mirrored
    (Frontend2.mappingsContainer (Frontend2.run events Frontend2.init)).
Proof.
  intros png events.
  assert (H : Forall Frontend2.mirrored (Frontend2.mappingsContainer Frontend2.init))
    by apply Forall_nil_2.
  exact (conj H (previews_mirror_fields Frontend2.init events H)).
Defined.

(** * Further properties of the chat front ends *)

Section splice_more.

Lemma insertAt_value (text placeholder : jsstring) (position : nat) :
  (insertAt text placeholder position).1
  = take position text ++ placeholder ++ drop position text.
Proof. cbn [insertAt fst]. by rewrite substring_take, substring_from_drop. Qed.

Lemma reader_onload_fields (blob : Blob) (st : Chat.State) :
  let st' := Chat.reader_onload blob st in
  let tok := token Img (Chat.imgCounter st) in
  let p := Chat.messageInput_selectionStart st in
  let v := Chat.messageInput_value st in
  Chat.messageInput_value st' = take p v ++ tok ++ drop p v ∧
  Chat.messageInput_selectionStart st'
  = (p + length tok) `min` length (take p v ++ tok ++ drop p v) ∧
  Chat.imgCounter st' = (Chat.imgCounter st + 1)%N.
Proof.
  cbn zeta. unfold Chat.reader_onload, Chat.insertPlaceholder. cbn [mint]. cbv zeta.
  cbn [Chat.messageInput_value Chat.set_imgCounter Chat.set_placeholderMap
       Chat.messageInput_selectionStart].
  pose proof (insertAt_value (Chat.messageInput_value st)
                (token Img (Chat.imgCounter st))
                (Chat.messageInput_selectionStart st)) as Hv.
  destruct (insertAt _ _ _) as [value newCursorPos] eqn:Hins.
  cbn [fst] in Hv. subst value.
  assert (newCursorPos = Chat.messageInput_selectionStart st
                         + length (token Img (Chat.imgCounter st))) as ->
    by (by injection Hins).
  done.
Qed.

End splice_more.

(** X6. A caret offset beyond the end of the text (a stale
    [lastCursorPosition], left over from a longer text) makes
    [insertPlaceholder] append the token at the end: nothing of the text is
    lost, the caret is put at the end of the new text, and the offset
    recorded for the next insertion is [position + length token], again
    beyond the end. *)
Theorem insertPlaceholder_beyond_end (text placeholder : jsstring) (position : nat) :
  length text ≤ position →
  (insertAt text placeholder position).1 = text ++ placeholder ∧
  (∀ st : Chat.State,
     let st' := Chat.insertPlaceholder placeholder position
                  (Chat.set_messageInput_value text st) in
     Chat.messageInput_value st' = text ++ placeholder ∧
     Chat.messageInput_selectionStart st' = length text + length placeholder ∧
     Chat.lastCursorPosition st' = position + length placeholder) ∧
  (∀ st : ChatObjUrl.State,
     let st' := ChatObjUrl.insertPlaceholder placeholder position
                  (ChatObjUrl.set_messageInput_value text st) in
     ChatObjUrl.messageInput_value st' = text ++ placeholder ∧
     ChatObjUrl.messageInput_selectionStart st' = length text + length placeholder ∧
     ChatObjUrl.lastCursorPosition st' = position + length placeholder).
Proof.
  intros Hpos.
  assert (Hv : (insertAt text placeholder position).1 = text ++ placeholder).
  { rewrite insertAt_value, take_ge, drop_ge by done. by rewrite app_nil_r. }
  assert (Hc : (insertAt text placeholder position).2 = position + length placeholder)
    by done.
  split; [done|]. split; intros st; cbn zeta.
  - unfold Chat.insertPlaceholder.
    cbn [Chat.messageInput_value Chat.set_messageInput_value].
    destruct (insertAt text placeholder position) as [value newCursorPos].
    cbn [fst snd] in Hv, Hc. subst. cbn. rewrite length_app. split_and!; try done. lia.
  - unfold ChatObjUrl.insertPlaceholder.
    cbn [ChatObjUrl.messageInput_value ChatObjUrl.set_messageInput_value].
    destruct (insertAt text placeholder position) as [value newCursorPos].
    cbn [fst snd] in Hv, Hc. subst. cbn. rewrite length_app. split_and!; try done. lia.
Qed.

Lemma insertPlaceholder_beyond_end_witness :
  length (lit "ab") ≤ 11 ∧
  (insertAt (lit "ab") (lit "[[code1]]") 11).1 = lit "ab" ++ lit "[[code1]]".
Proof.
  assert (H : length (lit "ab") ≤ 11) by (vm_compute; lia).
  exact (conj H (proj1 (insertPlaceholder_beyond_end (lit "ab") (lit "[[code1]]") 11 H))).
Defined.

Section caret.

Lemma insertPlaceholder_caret_within (placeholder : jsstring) (position : nat)
    (st : Chat.State) :
  Chat.caret_within (Chat.insertPlaceholder placeholder position st).
Proof.
  unfold Chat.caret_within, Chat.insertPlaceholder. cbv zeta.
  destruct (insertAt _ _ _) as [value newCursorPos].
  cbn [Chat.messageInput_selectionStart Chat.messageInput_value
       Chat.set_lastCursorPosition Chat.set_messageInput_selectionStart
       Chat.assign_value Chat.set_messageInput_value]. lia.
Qed.

Lemma caret_within_same (st st' : Chat.State) :
  Chat.messageInput_value st' = Chat.messageInput_value st →
  Chat.messageInput_selectionStart st' = Chat.messageInput_selectionStart st →
  Chat.caret_within st → Chat.caret_within st'.
Proof. unfold Chat.caret_within. by intros -> ->. Qed.

Lemma step_caret_within (e : Chat.Event) (st : Chat.State) :
  Chat.caret_within st → Chat.caret_within (Chat.step e st).
Proof.
  intros Hst.
  destruct e as [v c|v|v| | | | | | |blob| |loading o|a content|a ok]; cbn [Chat.step];
    try (eapply caret_within_same; [| |exact Hst]; reflexivity).
  - unfold Chat.caret_within.
    cbn [Chat.messageInput_selectionStart Chat.messageInput_value
         Chat.set_messageInput_selectionStart Chat.set_messageInput_value]. lia.
  - unfold Chat.enterFocusMode. by destruct (Chat.isFocusMode st).
  - unfold Chat.exitFocusMode. by destruct (Chat.isFocusMode st).
  - unfold Chat.addCodeFromModal. cbv zeta. case_decide; [done|]. cbn [mint].
    eapply caret_within_same; [| |apply insertPlaceholder_caret_within]; reflexivity.
  - unfold Chat.reader_onload. cbv zeta. cbn [mint].
    eapply caret_within_same; [| |apply insertPlaceholder_caret_within]; reflexivity.
  - unfold Chat.sendMessage. destruct (Chat.sendButton_disabled st); [done|].
    cbv zeta. case_decide; [done|]. unfold Chat.caret_within. reflexivity.
  - unfold Chat.sendMessage_resume. destruct (Chat.try_block o); cbv zeta;
      (eapply caret_within_same; [| |exact Hst]; reflexivity).
  - unfold Chat.download. destruct (Chat.currentSessionId st) as [[|c s]|];
      (eapply caret_within_same; [| |exact Hst]; reflexivity).
  - unfold Chat.download_resume. destruct ok;
      (eapply caret_within_same; [| |exact Hst]; reflexivity).
Qed.

Lemma run_caret_within (events : list Chat.Event) (st : Chat.State) :
  Chat.caret_within st → Chat.caret_within (Chat.run events st).
Proof.
  revert st. induction events as [|e events IH]; intros st Hst; [done|].
  rewrite run_cons. by apply IH, step_caret_within.
Qed.

(** The tokens given to images read one after the other, from a counter. *)
Lemma loads_splice (blobs : list Blob) (st : Chat.State) :
  Chat.caret_within st →
  let st' := Chat.run (Chat.ReaderLoad <$> blobs) st in
  let p := Chat.messageInput_selectionStart st in
  let v := Chat.messageInput_value st in
  let toks := (λ i, token Img (Chat.imgCounter st + N.of_nat i)) <$> seq 0 (length blobs) in
  Chat.messageInput_value st' = take p v ++ concat toks ++ drop p v ∧
  Chat.messageInput_selectionStart st' = p + length (concat toks).
Proof.
  revert st. induction blobs as [|blob blobs IH]; intros st Hst; cbn zeta.
  { cbn [fmap list_fmap length seq concat app]. unfold Chat.run. cbn [foldl].
    by rewrite take_drop, Nat.add_0_r. }
  rewrite fmap_cons, run_cons. cbn [Chat.step].
  destruct (reader_onload_fields blob st) as (Hv & Hp & Hc). cbn zeta in *.
  set (p := Chat.messageInput_selectionStart st) in *.
  set (v := Chat.messageInput_value st) in *.
  set (tok := token Img (Chat.imgCounter st)) in *.
  assert (Hpv : p ≤ length v) by exact Hst.
  assert (Hlen : length (take p v) = p) by (rewrite length_take; lia).
  rewrite Nat.min_l in Hp
    by (rewrite !length_app, Hlen; lia).
  assert (Hst' : Chat.caret_within (Chat.reader_onload blob st)).
  { unfold Chat.caret_within. rewrite Hv, Hp, !length_app, Hlen. lia. }
  destruct (IH _ Hst') as [Hv' Hp']. cbn zeta in *.
  rewrite Hv', Hp', Hv, Hp, Hc.
  assert (Htake : take (p + length tok) (take p v ++ tok ++ drop p v) = take p v ++ tok).
  { rewrite app_assoc, take_app_length'; [done|]. rewrite length_app, Hlen. done. }
  assert (Hdrop : drop (p + length tok) (take p v ++ tok ++ drop p v) = drop p v).
  { rewrite app_assoc, drop_app_length'; [done|]. rewrite length_app, Hlen. done. }
  rewrite Htake, Hdrop.
  assert (Htoks : (λ i, token Img (Chat.imgCounter st + N.of_nat i)) <$> seq 0 (S (length blobs))
                  = tok :: ((λ i, token Img (Chat.imgCounter st + 1 + N.of_nat i))
                              <$> seq 0 (length blobs))).
  { cbn [seq fmap list_fmap]. f_equal; [subst tok; f_equal; lia|].
    rewrite <-seq_shift, <-list_fmap_compose. apply list_fmap_ext.
    intros i x _. unfold compose. f_equal. lia. }
  cbn [length]. rewrite Htoks. cbn [concat]. rewrite length_app, <-!app_assoc.
  split; [done|lia].
Qed.

End caret.

(** X7. In the chat front end with sessions the caret of the message
    input always lies within its text, whatever happens; so every pasted
    image is spliced at the caret as a pure splice, and images read one
    after the other without the caret being moved are spliced in reading
    order at the original caret, each token right after the one before,
    with the caret left after the last. *)
Theorem pasted_images_splice_in_order
    (st0 : Chat.State) (events : list Chat.Event) (blobs : list Blob) :
  Chat.caret_within st0 →
  let st := Chat.run events st0 in
  let st' := Chat.run (Chat.ReaderLoad <$> blobs) st in
  let p := Chat.messageInput_selectionStart st in
  let v := Chat.messageInput_value st in
  let toks := (λ i, token Img (Chat.imgCounter st + N.of_nat i))
                <$> seq 0 (length blobs) in
  p ≤ length v ∧
  Chat.messageInput_value st' = take p v ++ concat toks ++ drop p v ∧
  Chat.messageInput_selectionStart st' = p + length (concat toks).
Proof.
  intros Hst0 st st' p v toks.
  assert (Hst : Chat.caret_within st) by (by apply run_caret_within).
  split; [exact Hst|]. by apply loads_splice.
Qed.

Lemma pasted_images_splice_in_order_witness :
  let png := {| blob_readable := true; blob_type := lit "image/png";
                blob_base64 := lit "AAA"; blob_object_url := lit "x" |} in
  let st' := Chat.run (Chat.ReaderLoad <$> [png; png])
               (Chat.run [Chat.TypeMessage (lit "ab") 1] Chat.init) in
  Chat.caret_within Chat.init ∧
  Chat.messageInput_value st' = lit "a" ++ (lit "[[img1]]" ++ lit "[[img2]]") ++ lit "b" ∧
  Chat.messageInput_selectionStart st' = 17.
Proof.
  intros png st'.
  assert (H : Chat.caret_within Chat.init) by (unfold Chat.caret_within; cbn; lia).
  destruct (pasted_images_splice_in_order Chat.init [Chat.TypeMessage (lit "ab") 1]
              [png; png] H) as (_ & Hv & Hp).
  split; [exact H|]. split; [exact Hv|exact Hp].
Defined.

Section sync.
Import Chat.

Lemma elem_of_tokens (t : ptype) (first count : nat) (x : jsstring) :
  x ∈ tokens t first count
  ↔ ∃ i, x = token t (N.of_nat i) ∧ first ≤ i < first + count.
Proof.
  unfold tokens. rewrite list_elem_of_fmap.
  by setoid_rewrite elem_of_seq.
Qed.

Lemma step_numbered_any (e : Event) (st : State) :
  numbered st → numbered (step e st).
Proof.
  intros Hst. destruct (settles e) eqn:He; [|by apply step_numbered].
  by destruct e.
Qed.

(** The token about to be minted labels no preview yet. *)
Lemma next_token_unused (t : ptype) (v : jsstring) (st : State) :
  numbered st →
  (v, token t match t with Img => imgCounter st | Code => codeCounter st end)
  ∉ imagePreviewContainer st ++ codePreviewContainer st.
Proof.
  intros (Hi & Hic & Hc & Hcc) Hin.
  apply (list_elem_of_fmap_2 snd) in Hin. rewrite fmap_app in Hin. cbn [snd] in Hin.
  rewrite Hi, Hc, elem_of_app, !elem_of_tokens in Hin.
  destruct Hin as [(i & Heq & Hlt)|(i & Heq & Hlt)], t;
    try (by apply token_type_ne in Heq);
    try (symmetry in Heq; by apply token_type_ne in Heq).
  - rewrite Hic in Heq. apply (inj (token Img)) in Heq. lia.
  - rewrite Hcc in Heq. apply (inj (token Code)) in Heq. lia.
Qed.

Lemma synced_insert (m : gmap jsstring jsstring) (k v : jsstring)
    (old new : list (jsstring * jsstring)) :
  (∀ k' v', m !! k' = Some v' ↔ (v', k') ∈ old) →
  (∀ v', (v', k) ∉ old) →
  (∀ p, p ∈ new ↔ p ∈ old ∨ p = (v, k)) →
  ∀ k' v', <[k := v]> m !! k' = Some v' ↔ (v', k') ∈ new.
Proof.
  intros Hm Hk Hnew k' v'. rewrite lookup_insert_Some, Hnew, <-Hm. split.
  - intros [[<- <-]|[_ ?]]; [by right|by left].
  - intros [Hin|[= -> ->]]; [|by left]. right. split; [|done].
    intros <-. apply Hm in Hin. by eapply Hk.
Qed.

Lemma step_synced (e : Event) (st : State) :
  numbered st → synced st → synced (step e st).
Proof.
  intros Hn Hst. pose proof (step_registry e st) as Hstep.
  assert (Hsame : registry (step e st) = registry st → synced (step e st)).
  { intros H. apply registry_eq in H as (Hm & _ & _ & Hi & Hc).
    unfold synced. rewrite Hm, Hi, Hc. apply Hst. }
  destruct e; try (by apply Hsame).
  - case_decide; [by apply Hsame|].
    apply registry_eq in Hstep as (Hm & _ & _ & Hi & Hc).
    unfold synced. rewrite Hm, Hi, Hc.
    apply (synced_insert _ _ _ (imagePreviewContainer st ++ codePreviewContainer st));
      [apply Hst| |].
    + intros v'. apply (next_token_unused Code v' st Hn).
    + intros p. rewrite !elem_of_app, list_elem_of_singleton. tauto.
  - apply registry_eq in Hstep as (Hm & _ & _ & Hi & Hc).
    unfold synced. rewrite Hm, Hi, Hc.
    apply (synced_insert _ _ _ (imagePreviewContainer st ++ codePreviewContainer st));
      [apply Hst| |].
    + intros v'. apply (next_token_unused Img v' st Hn).
    + intros p. rewrite !elem_of_app, list_elem_of_singleton. tauto.
  - apply registry_eq in Hstep as (Hm & _ & _ & Hi & Hc).
    unfold synced. rewrite Hm, Hi, Hc. intros k v.
    rewrite lookup_empty. split; [done|]. by intros ?%elem_of_nil.
Qed.

End sync.

(** X8. In the chat front end with sessions the map and the previews
    always agree, through any sequence of pastes, code submissions, sends
    and responses: the map sends a token to a content exactly when a preview
    shows that content under that token; the previews of each type are
    labelled [[<type>1]], [[<type>2]], ... in order, so no token is ever
    registered twice or overwritten. *)
Theorem previews_match_map (st : Chat.State) (events : list Chat.Event) :
  Chat.fresh st →
  let st' := Chat.run events st in
  (∀ k v, Chat.placeholderMap st' !! k = Some v
          ↔ (v, k) ∈ Chat.imagePreviewContainer st' ++ Chat.codePreviewContainer st') ∧
  (Chat.imagePreviewContainer st').*2
  = tokens Img 1 (length (Chat.imagePreviewContainer st')) ∧
  (Chat.codePreviewContainer st').*2
  = tokens Code 1 (length (Chat.codePreviewContainer st')) ∧
  NoDup ((Chat.imagePreviewContainer st' ++ Chat.codePreviewContainer st').*2).
Proof.
  intros Hfresh st'.
  assert (H : Chat.numbered st' ∧ Chat.synced st').
  { subst st'.
    assert (Hn : Chat.numbered st) by (by apply fresh_numbered).
    assert (Hs : Chat.synced st).
    { apply registry_eq in Hfresh as (Hm & _ & _ & Hi & Hc).
      unfold Chat.synced. rewrite Hm, Hi, Hc. intros k v.
      rewrite lookup_empty. split; [done|]. by intros ?%elem_of_nil. }
    clear Hfresh. revert st Hn Hs.
    induction events as [|e events IH]; intros st Hn Hs; [done|].
    rewrite run_cons. apply IH; [by apply step_numbered_any|by apply step_synced]. }
  destruct H as [(Hi & _ & Hc & _) Hs]. split_and!; try done.
  rewrite fmap_app, Hi, Hc. apply NoDup_tokens_app.
Qed.

Lemma previews_match_map_witness :
  let png := {| blob_readable := true; blob_type := lit "image/png";
                blob_base64 := lit "AAA"; blob_object_url := lit "x" |} in
  let events := [Chat.ReaderLoad png; Chat.TypeCode (lit "ls"); Chat.AddCode;
                 Chat.Send; Chat.SendSettled 1 (Rejected (lit "Failed to fetch"));
                 Chat.ReaderLoad png] in
  Chat.fresh Chat.init ∧
  Chat.placeholderMap (Chat.run events Chat.init) !! lit "[[img1]]"
  = Some (lit "data:image/png;base64,AAA").
Proof.
  intros png events.
  assert (H : Chat.fresh Chat.init) by reflexivity.
  destruct (previews_match_map Chat.init events H) as (Hs & _).
  split; [exact H|]. apply Hs. apply list_elem_of_In. by left.
Defined.

Section chat_latch.
Import Chat.

Lemma step_in_flight_chat (e : Event) (st : State) :
  settles e = false → sendButton_disabled st = true →
  sendButton_disabled (step e st) = true ∧
  generations (fetched (step e st)) = generations (fetched st).
Proof.
  intros He Hdis.
  destruct e as [v c|v|v| | | | | | |blob| |loading o|a content|a ok]; cbn [step];
    try done.
  - unfold enterFocusMode. by destruct (isFocusMode st).
  - unfold exitFocusMode. by destruct (isFocusMode st).
  - unfold addCodeFromModal. cbv zeta. by case_decide.
  - unfold sendMessage. by rewrite Hdis.
  - unfold download. destruct (currentSessionId st) as [[|c s]|]; try done.
    cbn [fst fetched set_fetched sendButton_disabled].
    by rewrite generations_snoc_export.
  - unfold download_resume. by destruct ok.
Qed.

End chat_latch.

(** X9. In the chat front end with sessions at most one generation is in
    flight: once [sendMessage] has issued a request, the send button stays
    disabled and any further send attempt (click, Enter, form submit) does
    nothing, whatever the input holds, until the request ends; the end of
    the request, whatever its outcome, enables the button again. *)
Theorem send_one_in_flight (st : Chat.State) (events : list Chat.Event) :
  is_Some (Chat.sendMessage st).2 →
  Forall (λ e, Chat.settles e = false) events →
  let st1 := (Chat.sendMessage st).1 in
  let st' := Chat.run events st1 in
  Chat.sendButton_disabled st' = true ∧
  generations (Chat.fetched st') = generations (Chat.fetched st1) ∧
  Chat.sendMessage st' = (st', None) ∧
  Chat.messageInput_keydown (lit "Enter") false st' = (st', None) ∧
  (∀ loadingAnimation o,
     Chat.sendButton_disabled (Chat.sendMessage_resume loadingAnimation o st') = false).
Proof.
  intros Hissued Hev st1 st'.
  assert (Hst1 : Chat.sendButton_disabled st1 = true).
  { subst st1. revert Hissued. unfold Chat.sendMessage.
    destruct (Chat.sendButton_disabled st); [by intros [? [=]]|]. cbv zeta.
    case_decide; [by intros [? [=]]|]. intros _.
    unfold Chat.exitFocusMode. destruct st as [? ? ? ? ? ? ? ? ? ? ? ? ? ? focus ? ? ? ?].
    by destruct focus. }
  assert (Hrun : Chat.sendButton_disabled st' = true ∧
                 generations (Chat.fetched st') = generations (Chat.fetched st1)).
  { subst st'. clear Hissued. revert Hst1. generalize st1. clear st1.
    induction Hev as [|e events He _ IH]; intros st1 Hst1; [done|].
    rewrite run_cons.
    destruct (step_in_flight_chat e st1 He Hst1) as [Hdis Hgen].
    destruct (IH _ Hdis) as [? ?]. split; [done|congruence]. }
  destruct Hrun as [Hdis Hgen].
  assert (Hsend : Chat.sendMessage st' = (st', None))
    by (unfold Chat.sendMessage; by rewrite Hdis).
  split_and!; try done.
Qed.

Lemma send_one_in_flight_witness :
  let st := Chat.run [Chat.TypeMessage (lit "hi") 2] Chat.init in
  let events := [Chat.TypeMessage (lit "again") 5; Chat.Send] in
  (is_Some (Chat.sendMessage st).2 ∧
   Forall (λ e, Chat.settles e = false) events) ∧
  length (generations (Chat.fetched (Chat.run events (Chat.sendMessage st).1))) = 1.
Proof.
  intros st events.
  assert (H1 : is_Some (Chat.sendMessage st).2) by (by eexists).
  assert (H2 : Forall (λ e, Chat.settles e = false) events) by (repeat constructor).
  destruct (send_one_in_flight st events H1 H2) as (_ & Hgen & _).
  split; [done|]. by rewrite Hgen.
Defined.

Section chat_cycle.
Import Chat.

Lemma filter_ids_below (n : nat) (l : list (nat * Node)) :
  Forall (λ e, e.1 < n) l → ∀ m, n ≤ m → filter (λ e, e.1 ≠ m) l = l.
Proof.
  intros Hl m Hm. induction Hl as [|e l He _ IH]; [done|].
  rewrite filter_cons_True by lia. by rewrite IH.
Qed.

Lemma addDownloadButtons_ids_below (n : nat) (content : jsvalue)
    (l : list (nat * Node)) :
  Forall (λ e, e.1 < n) l → ∀ m, n ≤ m →
  (λ '(id, node),
     match node with
     | MessageEl sender text buttons =>
         if decide (id = m)
         then (id, MessageEl sender text (buttons ++ [content]))
         else (id, node)
     | LoadingEl => (id, node)
     end) <$> l = l.
Proof.
  intros Hl m Hm. induction Hl as [|[id node] l He _ IH]; [done|].
  rewrite fmap_cons, IH. f_equal. cbn in He. destruct node; [|done].
  by rewrite decide_False by lia.
Qed.

End chat_cycle.

(** X10. One request cycle of the chat front end with sessions, when the
    button is enabled and the text is not blank.  [sendMessage] sends one
    generation request carrying the trimmed text, the map as it stands and
    the category, empties the input and leaves the registry alone.  When
    the request ends, the chat has gained exactly the user's message and
    one bot message ("Done!" with the generated text on its download
    buttons, or "Error: " and the error's message), the loading animation
    is gone, the registry is reset, the button is enabled, and the session
    identifier is the response's on success and unchanged on failure. *)
Theorem chat_request_cycle (st : Chat.State) (o : FetchOutcome) :
  Chat.ids_below st →
  Chat.sendButton_disabled st = false →
  ¬ blank (Chat.messageInput_value st) →
  let text := trim (Chat.messageInput_value st) in
  let n := Chat.next_node st in
  let st1 := (Chat.sendMessage st).1 in
  let st2 := Chat.sendMessage_resume (S n) o st1 in
  (Chat.sendMessage st).2 = Some (S n) ∧
  Chat.fetched st1
  = Chat.fetched st
    ++ [Generate (lit "http://localhost:8000/generate") text
          (Chat.placeholderMap st) (Chat.categorySelect_value st)] ∧
  Chat.messageInput_value st1 = [] ∧
  Chat.registry st1 = Chat.registry st ∧
  Chat.chatBox st2
  = Chat.chatBox st
    ++ [(n, Chat.MessageEl (lit "user") text []);
        (S (S n),
         match Chat.try_block o with
         | inl data => Chat.MessageEl (lit "bot") (lit "Done!") [generated_text data]
         | inr message => Chat.MessageEl (lit "bot") (lit "Error: " ++ message) []
         end)] ∧
  Chat.registry st2 = (∅, 1%N, 1%N, [], []) ∧
  Chat.sendButton_disabled st2 = false ∧
  Chat.fetched st2 = Chat.fetched st1 ∧
  Chat.currentSessionId st2
  = match Chat.try_block o with
    | inl data => session_id data
    | inr _ => Chat.currentSessionId st
    end.
Proof.
  intros Hids Hen Hblank text n st1 st2.
  assert (Htext : text ≠ []) by (subst text; by rewrite trim_blank).
  assert (Hsend : Chat.sendMessage st
    = (Chat.set_fetched
         (Chat.fetched st
          ++ [Generate (lit "http://localhost:8000/generate") text
                (Chat.placeholderMap st) (Chat.categorySelect_value st)])
         (Chat.set_next_node (S (S n))
            (Chat.set_chatBox
               (Chat.chatBox st
                ++ [(n, Chat.MessageEl (lit "user") text [])] ++ [(S n, Chat.LoadingEl)])
               (Chat.assign_value []
                  (Chat.set_isFocusMode false
                     (Chat.set_sendButton_disabled true st))))),
       Some (S n))).
  { unfold Chat.sendMessage. rewrite Hen. cbv zeta.
    cbn [Chat.messageInput_value Chat.set_sendButton_disabled]. fold text.
    rewrite decide_False by done. unfold Chat.exitFocusMode.
    subst n. destruct st as [? ? ? ? ? ? ? ? ? ? ? ? ? ? focus ? ? ? ?].
    destruct focus; cbn -[lit]; by rewrite <-app_assoc. }
  assert (Hst1 : st1 = (Chat.sendMessage st).1) by done.
  rewrite Hsend in Hst1 |- *. cbn [fst snd] in Hst1.
  assert (Hbox : Chat.chatBox (Chat.hideLoadingAnimation (S n) st1)
                 = Chat.chatBox st ++ [(n, Chat.MessageEl (lit "user") text [])]).
  { rewrite Hst1. unfold Chat.hideLoadingAnimation.
    cbn [Chat.chatBox Chat.set_chatBox Chat.set_fetched Chat.set_next_node].
    rewrite !filter_app, (filter_ids_below n) by (done || lia).
    rewrite filter_cons_True, filter_cons_False by (cbn; lia). done. }
  assert (Hnext : Chat.next_node st1 = S (S n)) by (by rewrite Hst1).
  split_and!.
  - done.
  - by rewrite Hst1.
  - by rewrite Hst1.
  - by rewrite Hst1.
  - subst st2. unfold Chat.sendMessage_resume.
    destruct (Chat.try_block o) as [data|message]; cbv zeta.
    + transitivity
        ((λ '(id, node),
            match node with
            | Chat.MessageEl sender text buttons =>
                if decide (id = S (S n))
                then (id, Chat.MessageEl sender text
                            (buttons ++ [generated_text data]))
                else (id, node)
            | Chat.LoadingEl => (id, node)
            end) <$>
           (Chat.chatBox (Chat.hideLoadingAnimation (S n) st1)
            ++ [(S (S n), Chat.MessageEl (lit "bot") (lit "Done!") [])]));
        [rewrite <-Hnext; reflexivity|].
      rewrite Hbox, fmap_app, fmap_app.
      rewrite (addDownloadButtons_ids_below n) by (done || lia).
      cbn [fmap list_fmap]. rewrite decide_False, decide_True by lia.
      by rewrite <-app_assoc.
    + transitivity
        (Chat.chatBox (Chat.hideLoadingAnimation (S n) st1)
         ++ [(S (S n), Chat.MessageEl (lit "bot") (lit "Error: " ++ message) [])]);
        [rewrite <-Hnext; reflexivity|].
      rewrite Hbox. by rewrite <-app_assoc.
  - apply request_end_resets.
  - reflexivity.
  - subst st2. unfold Chat.sendMessage_resume.
    by destruct (Chat.try_block o).
  - subst st2. unfold Chat.sendMessage_resume.
    destruct (Chat.try_block o); [done|]. by rewrite Hst1.
Qed.

Lemma chat_request_cycle_witness :
  let st := Chat.run [Chat.TypeMessage (lit " hi ") 4] Chat.init in
  let o := Rejected (lit "Failed to fetch") in
  (Chat.ids_below st ∧ Chat.sendButton_disabled st = false ∧
   ¬ blank (Chat.messageInput_value st)) ∧
  Chat.chatBox (Chat.sendMessage_resume 1 o (Chat.sendMessage st).1)
  = [(0, Chat.MessageEl (lit "user") (lit "hi") []);
     (2, Chat.MessageEl (lit "bot") (lit "Error: " ++ lit "Failed to fetch") [])].
Proof.
  intros st o.
  assert (H1 : Chat.ids_below st) by apply Forall_nil_2.
  assert (H2 : Chat.sendButton_disabled st = false) by reflexivity.
  assert (H3 : ¬ blank (Chat.messageInput_value st)).
  { intros H%trim_blank. by vm_compute in H. }
  destruct (chat_request_cycle st o H1 H2 H3) as (_ & _ & _ & _ & Hbox & _).
  split; [done|]. exact Hbox.
Defined.

Section chat_sessions.
Import Chat.

Lemma step_exports_chat (e : Event) (st : State) :
  exports (fetched (step e st)) = exports (fetched st) ∨
  ∃ c s content,
    currentSessionId st = Some (c :: s) ∧
    exports (fetched (step e st)) = exports (fetched st) ++ [(c :: s, content)].
Proof.
  destruct e as [v c|v|v| | | | | | |blob| |loading o|a content|a ok]; cbn [step];
    try by left.
  - left. unfold enterFocusMode. by destruct (isFocusMode st).
  - left. unfold exitFocusMode. by destruct (isFocusMode st).
  - left. unfold addCodeFromModal. cbv zeta. by case_decide.
  - left. unfold sendMessage. destruct (sendButton_disabled st); [done|].
    cbv zeta. case_decide; [done|].
    unfold exitFocusMode. destruct st as [? ? ? ? ? ? ? ? ? ? ? ? ? ? focus ? ? ? ?].
    destruct focus; cbn -[lit trim]; apply exports_snoc_generate.
  - left. unfold sendMessage_resume. by destruct (try_block o).
  - unfold download. destruct (currentSessionId st) as [[|c s]|] eqn:Hs; try by left.
    right. exists c, s, content. split; [done|].
    cbn [fst fetched set_fetched]. unfold exports. by rewrite omap_app.
  - left. unfold download_resume. by destruct ok.
Qed.

Lemma step_session_chat (e : Event) (st : State) :
  succeeds e = false → currentSessionId (step e st) = currentSessionId st.
Proof.
  intros He.
  destruct e as [v c|v|v| | | | | | |blob| |loading o|a content|a ok]; cbn [step];
    try done.
  - unfold enterFocusMode. by destruct (isFocusMode st).
  - unfold exitFocusMode. by destruct (isFocusMode st).
  - unfold addCodeFromModal. cbv zeta. by case_decide.
  - unfold sendMessage. destruct (sendButton_disabled st); [done|].
    cbv zeta. case_decide; [done|].
    unfold exitFocusMode. destruct st as [? ? ? ? ? ? ? ? ? ? ? ? ? ? focus ? ? ? ?].
    by destruct focus.
  - unfold sendMessage_resume. unfold succeeds in He.
    destruct (try_block o); [done|reflexivity].
  - unfold download. destruct (currentSessionId st) as [[|c s]|] eqn:Hs; exact Hs.
  - unfold download_resume. by destruct ok.
Qed.

End chat_sessions.

(** X11. Exports of the chat front end with sessions.  An export request
    always carries a non-empty session identifier.  The session identifier
    changes only when a generation ends with a success response: failures,
    pastes, sends and downloads leave it as it was.  Hence, as long as no
    generation has succeeded since a state without session identifier, no
    export request is made at all. *)
Theorem chat_exports_need_session (st : Chat.State) (events : list Chat.Event) :
  Forall (λ p, p.1 ≠ []) (exports (Chat.fetched st)) →
  let st' := Chat.run events st in
  Forall (λ p, p.1 ≠ []) (exports (Chat.fetched st')) ∧
  (Forall (λ e, Chat.succeeds e = false) events →
   Chat.currentSessionId st' = Chat.currentSessionId st ∧
   (Chat.currentSessionId st = None →
    exports (Chat.fetched st') = exports (Chat.fetched st))).
Proof.
  intros Hst st'. subst st'. split.
  - revert st Hst. induction events as [|e events IH]; intros st Hst; [done|].
    rewrite run_cons. apply IH.
    destruct (step_exports_chat e st) as [->|(c & s & content & _ & ->)]; [done|].
    apply Forall_app. split; [done|]. by apply Forall_singleton.
  - clear Hst. intros Hev. revert st.
    induction Hev as [|e events He _ IH]; intros st; [done|].
    rewrite run_cons.
    pose proof (step_session_chat e st He) as Hs.
    destruct (IH (Chat.step e st)) as (Hs' & Hex).
    split; [congruence|].
    intros Hnone. rewrite Hex by congruence.
    destruct (step_exports_chat e st) as [->|(c & s & content & Hsome & _)];
      [done|congruence].
Qed.

Lemma chat_exports_need_session_witness :
  let failed := Responded {| ok := false;
                             body := Json {| detail := Some (lit "rate limited");
                                             session_id := None;
                                             generated_text := None |} |} in
  let events := [Chat.TypeMessage (lit "hi") 2; Chat.Send;
                 Chat.SendSettled 1 failed;
                 Chat.Download Chat.Package (Some (lit "text"))] in
  (Forall (λ p, p.1 ≠ []) (exports (Chat.fetched Chat.init)) ∧
   Forall (λ e, Chat.succeeds e = false) events) ∧
  Chat.currentSessionId (Chat.run events Chat.init) = None ∧
  exports (Chat.fetched (Chat.run events Chat.init)) = [].
Proof.
  intros failed events.
  assert (H1 : Forall (λ p, p.1 ≠ []) (exports (Chat.fetched Chat.init)))
    by apply Forall_nil_2.
  assert (H2 : Forall (λ e, Chat.succeeds e = false) events)
    by (repeat constructor).
  destruct (chat_exports_need_session Chat.init events H1) as [_ H].
  destruct (H H2) as (Hs & Hex).
  split; [done|]. split; [exact Hs|exact (Hex eq_refl)].
Defined.

Section obj_url_paste.
Import ChatObjUrl.

Lemma paste_item_other (st : State) (item : ClipboardItem) :
  includes (item_type item) (lit "image") = false → paste_item st item = st.
Proof. unfold paste_item. by intros ->. Qed.

Lemma paste_item_image (st : State) (item : ClipboardItem) :
  includes (item_type item) (lit "image") = true →
  let st' := paste_item st item in
  let tok := token Img (imgCounter st) in
  let url := createObjectURL (item_file item) in
  let p := messageInput_selectionStart st in
  let v := messageInput_value st in
  messageInput_value st' = take p v ++ tok ++ drop p v ∧
  messageInput_selectionStart st'
  = (p + length tok) `min` length (take p v ++ tok ++ drop p v) ∧
  imgCounter st' = (imgCounter st + 1)%N ∧
  codeCounter st' = codeCounter st ∧
  imagePreviewContainer st' = imagePreviewContainer st ++ [(url, tok)] ∧
  placeholderMap st' = <[tok := url]> (placeholderMap st).
Proof.
  intros Himg. cbn zeta. unfold paste_item, insertPlaceholder. rewrite Himg.
  cbn [mint]. cbv zeta.
  cbn [messageInput_value set_imgCounter set_placeholderMap
       messageInput_selectionStart].
  pose proof (insertAt_value (messageInput_value st) (token Img (imgCounter st))
                (messageInput_selectionStart st)) as Hv.
  destruct (insertAt _ _ _) as [value newCursorPos] eqn:Hins.
  cbn [fst] in Hv. subst value.
  assert (newCursorPos = messageInput_selectionStart st
                         + length (token Img (imgCounter st))) as ->
    by (by injection Hins).
  done.
Qed.

Lemma image_items_cons (item : ClipboardItem) (items : list ClipboardItem) :
  image_items (item :: items)
  = if includes (item_type item) (lit "image")
    then item :: image_items items else image_items items.
Proof.
  unfold image_items. destruct (includes _ _) eqn:E.
  - by rewrite filter_cons_True.
  - rewrite filter_cons_False; [done|]. by rewrite E.
Qed.

Lemma handlePaste_spec (items : list ClipboardItem) (st : State) :
  caret_within st →
  let imgs := image_items items in
  let toks := (λ i, token Img (imgCounter st + N.of_nat i)) <$> seq 0 (length imgs) in
  let urls := (λ item, createObjectURL (item_file item)) <$> imgs in
  let p := messageInput_selectionStart st in
  let v := messageInput_value st in
  let st' := handlePaste items st in
  imgCounter st' = (imgCounter st + N.of_nat (length imgs))%N ∧
  codeCounter st' = codeCounter st ∧
  imagePreviewContainer st' = imagePreviewContainer st ++ zip urls toks ∧
  messageInput_value st' = take p v ++ concat toks ++ drop p v ∧
  messageInput_selectionStart st' = p + length (concat toks) ∧
  (∀ k, k ∉ toks → placeholderMap st' !! k = placeholderMap st !! k) ∧
  (∀ i tok url, toks !! i = Some tok → urls !! i = Some url →
                placeholderMap st' !! tok = Some url).
Proof.
  revert st. induction items as [|item items IH]; intros st Hst; cbn zeta.
  { unfold handlePaste. cbn [foldl image_items filter list_filter length seq fmap
                             list_fmap concat zip zip_with app].
    change (image_items []) with (@nil ClipboardItem).
    cbn [length seq fmap list_fmap concat zip zip_with app].
    rewrite take_drop, Nat.add_0_r, N.add_0_r, app_nil_r. by split_and!. }
  unfold handlePaste. cbn [foldl]. fold (handlePaste items (paste_item st item)).
  rewrite image_items_cons.
  destruct (includes (item_type item) (lit "image")) eqn:Himg;
    [|rewrite paste_item_other by done; by apply IH].
  destruct (paste_item_image st item Himg) as (Hv & Hp & Hc & Hcc & Hi & Hm).
  cbn zeta in *.
  set (p := messageInput_selectionStart st) in *.
  set (v := messageInput_value st) in *.
  set (tok := token Img (imgCounter st)) in *.
  set (url := createObjectURL (item_file item)) in *.
  assert (Hpv : p ≤ length v) by exact Hst.
  assert (Hlen : length (take p v) = p) by (rewrite length_take; lia).
  rewrite Nat.min_l in Hp by (rewrite !length_app, Hlen; lia).
  assert (Hst' : caret_within (paste_item st item)).
  { unfold caret_within. rewrite Hv, Hp, !length_app, Hlen. lia. }
  destruct (IH _ Hst') as (Hc' & Hcc' & Hi' & Hv' & Hp' & Hm' & Hl'). cbn zeta in *.
  rewrite ?Hv, ?Hp, ?Hc in Hv'. rewrite ?Hp, ?Hc in Hp'.
  rewrite ?Hc in Hi'. rewrite ?Hc in Hm'. rewrite ?Hc in Hl'. rewrite Hc in Hc'.
  assert (Htake : take (p + length tok) (take p v ++ tok ++ drop p v) = take p v ++ tok).
  { rewrite app_assoc, take_app_length'; [done|]. by rewrite length_app, Hlen. }
  assert (Hdrop : drop (p + length tok) (take p v ++ tok ++ drop p v) = drop p v).
  { rewrite app_assoc, drop_app_length'; [done|]. by rewrite length_app, Hlen. }
  rewrite Htake, Hdrop in Hv'.
  assert (Htoks : (λ i, token Img (imgCounter st + N.of_nat i))
                    <$> seq 0 (S (length (image_items items)))
                  = tok :: ((λ i, token Img (imgCounter st + 1 + N.of_nat i))
                              <$> seq 0 (length (image_items items)))).
  { cbn [seq fmap list_fmap]. f_equal; [subst tok; f_equal; lia|].
    rewrite <-seq_shift, <-list_fmap_compose. apply list_fmap_ext.
    intros i x _. unfold compose. f_equal. lia. }
  cbn [length]. rewrite Htoks, fmap_cons. fold url.
  cbn [concat zip zip_with]. rewrite length_app.
  assert (Hfresh : tok ∉ (λ i, token Img (imgCounter st + 1 + N.of_nat i))
                           <$> seq 0 (length (image_items items))).
  { intros (i & Heq & _)%list_elem_of_fmap. apply (inj (token Img)) in Heq. lia. }
  split_and!.
  - rewrite Hc'. lia.
  - by rewrite Hcc'.
  - rewrite Hi', Hi. by rewrite <-app_assoc.
  - rewrite Hv'. by rewrite <-!app_assoc.
  - rewrite Hp'. lia.
  - intros k [Hk1 Hk2]%not_elem_of_cons. rewrite Hm' by done.
    rewrite Hm. by apply lookup_insert_ne.
  - intros [|i] tok' url' Ht Hu; simplify_eq/=.
    + rewrite Hm' by done. rewrite Hm. apply lookup_insert_eq.
    + by eapply Hl'.
Qed.

End obj_url_paste.

(** X12. A paste in the chat front end with object URLs.  The items whose
    type contains "image" are registered one after the other: each gets the
    next image token, its object URL is stored in the map under that token
    and shown in a new preview, and the tokens are spliced in order at the
    caret, which ends after the last; the other items are ignored and the
    code counter is untouched.  A paste without image items changes
    nothing. *)
Theorem paste_registers_images (items : list ClipboardItem) (st : ChatObjUrl.State) :
  ChatObjUrl.caret_within st →
  let imgs := ChatObjUrl.image_items items in
  let toks := (λ i, token Img (ChatObjUrl.imgCounter st + N.of_nat i))
                <$> seq 0 (length imgs) in
  let urls := (λ item, createObjectURL (item_file item)) <$> imgs in
  let p := ChatObjUrl.messageInput_selectionStart st in
  let v := ChatObjUrl.messageInput_value st in
  let st' := ChatObjUrl.handlePaste items st in
  ChatObjUrl.imgCounter st' = (ChatObjUrl.imgCounter st + N.of_nat (length imgs))%N ∧
  ChatObjUrl.codeCounter st' = ChatObjUrl.codeCounter st ∧
  ChatObjUrl.imagePreviewContainer st'
  = ChatObjUrl.imagePreviewContainer st ++ zip urls toks ∧
  ChatObjUrl.messageInput_value st' = take p v ++ concat toks ++ drop p v ∧
  ChatObjUrl.messageInput_selectionStart st' = p + length (concat toks) ∧
  (∀ k, k ∉ toks →
        ChatObjUrl.placeholderMap st' !! k = ChatObjUrl.placeholderMap st !! k) ∧
  (∀ i tok url, toks !! i = Some tok → urls !! i = Some url →
                ChatObjUrl.placeholderMap st' !! tok = Some url) ∧
  (imgs = [] → st' = st ∧ Chat.handlePaste items = []).
Proof.
  intros Hst imgs toks urls p v st'.
  destruct (handlePaste_spec items st Hst) as (H1 & H2 & H3 & H4 & H5 & H6 & H7).
  split_and!; try done.
  intros Himgs. split.
  - subst st' imgs. clear -Himgs. revert st.
    induction items as [|item items IH]; intros st; [done|].
    rewrite image_items_cons in Himgs.
    destruct (includes (item_type item) (lit "image")) eqn:Himg; [done|].
    unfold ChatObjUrl.handlePaste. cbn [foldl].
    rewrite paste_item_other by done. by apply IH.
  - unfold Chat.handlePaste. fold (ChatObjUrl.image_items items).
    fold imgs. by rewrite Himgs.
Qed.

Lemma paste_registers_images_witness :
  let png := {| blob_readable := true; blob_type := lit "image/png";
                blob_base64 := lit "AAA"; blob_object_url := lit "x" |} in
  let items := [{| item_type := lit "text/plain"; item_file := png |};
                {| item_type := lit "image/png"; item_file := png |};
                {| item_type := lit "image/png"; item_file := png |}] in
  ChatObjUrl.caret_within ChatObjUrl.init ∧
  ChatObjUrl.imgCounter (ChatObjUrl.handlePaste items ChatObjUrl.init) = 3%N ∧
  ChatObjUrl.messageInput_value (ChatObjUrl.handlePaste items ChatObjUrl.init)
  = lit "[[img1]]" ++ lit "[[img2]]".
Proof.
  intros png items.
  assert (H : ChatObjUrl.caret_within ChatObjUrl.init)
    by (unfold ChatObjUrl.caret_within; cbn; lia).
  destruct (paste_registers_images items ChatObjUrl.init H)
    as (Hc & _ & _ & Hv & _).
  split; [exact H|]. split; [exact Hc|exact Hv].
Defined.

Section obj_url_cycle.
Import ChatObjUrl.

Lemma filter_ids_below_obj (n : nat) (l : list (nat * Node)) :
  Forall (λ e, e.1 < n) l → ∀ m, n ≤ m → filter (λ e, e.1 ≠ m) l = l.
Proof.
  intros Hl m Hm. induction Hl as [|e l He _ IH]; [done|].
  rewrite filter_cons_True by lia. by rewrite IH.
Qed.

Lemma addDownloadButton_ids_below (n : nat) (content : jsvalue)
    (l : list (nat * Node)) :
  Forall (λ e, e.1 < n) l → ∀ m, n ≤ m →
  (λ '(id, MessageEl sender text buttons),
     if decide (id = m)
     then (id, MessageEl sender text (buttons ++ [content]))
     else (id, MessageEl sender text buttons)) <$> l = l.
Proof.
  intros Hl m Hm. induction Hl as [|[id [sender text buttons]] l He _ IH]; [done|].
  rewrite fmap_cons, IH. f_equal. cbn in He. by rewrite decide_False by lia.
Qed.

End obj_url_cycle.

(** X13. One request cycle of the chat front end with object URLs, when
    the text is not blank.  [sendMessage] sends one generation request with
    the trimmed text, the map and the category, and shows the user's
    message and "Thinking...".  After a network failure the chat shows
    "Error: " and the error's message, after a success response with a JSON
    body it shows the generated text with its download button; in both
    cases "Thinking..." is gone and the registry is reset.  After any other
    response (a status that is not ok, or a body that is not JSON) the
    handler ends in an exception: "Thinking..." is gone, no bot message is
    shown, and the map, the counters and the previews stay as they
    were. *)
Theorem obj_url_request_cycle (st : ChatObjUrl.State) (o : FetchOutcome) :
  ChatObjUrl.ids_below st →
  ¬ blank (ChatObjUrl.messageInput_value st) →
  let text := trim (ChatObjUrl.messageInput_value st) in
  let n := ChatObjUrl.next_node st in
  let st1 := (ChatObjUrl.sendMessage st).1 in
  let result := ChatObjUrl.sendMessage_resume (S n) o st1 in
  let st2 := ChatObjUrl.final result in
  let user := (n, ChatObjUrl.MessageEl (lit "user") text []) in
  let reset :=
    ChatObjUrl.placeholderMap st2 = ∅ ∧ ChatObjUrl.imgCounter st2 = 1%N ∧
    ChatObjUrl.codeCounter st2 = 1%N ∧ ChatObjUrl.imagePreviewContainer st2 = [] in
  (ChatObjUrl.sendMessage st).2 = Some (S n) ∧
  ChatObjUrl.fetched st1
  = ChatObjUrl.fetched st
    ++ [Generate (lit "http://localhost:8000/generate") text
          (ChatObjUrl.placeholderMap st) (ChatObjUrl.categorySelect_value st)] ∧
  ChatObjUrl.chatBox st1
  = ChatObjUrl.chatBox st
    ++ [user; (S n, ChatObjUrl.MessageEl (lit "bot") (lit "Thinking...") [])] ∧
  match o with
  | Rejected message =>
      result = ChatObjUrl.Returned st2 ∧ reset ∧
      ChatObjUrl.chatBox st2
      = ChatObjUrl.chatBox st
        ++ [user; (S (S n), ChatObjUrl.MessageEl (lit "bot")
                              (lit "Error: " ++ message) [])]
  | Responded {| ok := true; body := Json data |} =>
      result = ChatObjUrl.Returned st2 ∧ reset ∧
      ChatObjUrl.chatBox st2
      = ChatObjUrl.chatBox st
        ++ [user; (S (S n), ChatObjUrl.MessageEl (lit "bot")
                              (ChatObjUrl.innerText_of (generated_text data))
                              [generated_text data])]
  | Responded _ =>
      result = ChatObjUrl.Threw st2 ∧
      ChatObjUrl.chatBox st2 = ChatObjUrl.chatBox st ++ [user] ∧
      ChatObjUrl.placeholderMap st2 = ChatObjUrl.placeholderMap st ∧
      ChatObjUrl.imgCounter st2 = ChatObjUrl.imgCounter st ∧
      ChatObjUrl.codeCounter st2 = ChatObjUrl.codeCounter st ∧
      ChatObjUrl.imagePreviewContainer st2 = ChatObjUrl.imagePreviewContainer st
  end.
Proof.
  intros Hids Hblank text n st1 result st2 user reset.
  assert (Htext : text ≠ []) by (subst text; by rewrite trim_blank).
  assert (Hsend : ChatObjUrl.sendMessage st
    = (ChatObjUrl.set_fetched
         (ChatObjUrl.fetched st
          ++ [Generate (lit "http://localhost:8000/generate") text
                (ChatObjUrl.placeholderMap st) (ChatObjUrl.categorySelect_value st)])
         (ChatObjUrl.set_next_node (S (S n))
            (ChatObjUrl.set_chatBox
               (ChatObjUrl.chatBox st
                ++ [user; (S n, ChatObjUrl.MessageEl (lit "bot") (lit "Thinking...") [])])
               (ChatObjUrl.assign_value []
                  (ChatObjUrl.set_isFocusMode false st)))),
       Some (S n))).
  { unfold ChatObjUrl.sendMessage. cbv zeta. fold text.
    rewrite decide_False by done. unfold ChatObjUrl.exitFocusMode.
    subst user n. destruct st as [? ? ? ? ? ? ? ? ? ? ? ? focus ? ?].
    destruct focus; cbn -[lit]; by rewrite <-app_assoc. }
  assert (Hst1 : st1 = (ChatObjUrl.sendMessage st).1) by done.
  rewrite Hsend in Hst1 |- *. cbn [fst snd] in Hst1.
  assert (Hbox1 : ChatObjUrl.chatBox st1
                  = ChatObjUrl.chatBox st
                    ++ [user; (S n, ChatObjUrl.MessageEl (lit "bot") (lit "Thinking...") [])])
    by (by rewrite Hst1).
  assert (Hnext : ChatObjUrl.next_node st1 = S (S n)) by (by rewrite Hst1).
  assert (Hfilter : filter (λ e, e.1 ≠ S n) (ChatObjUrl.chatBox st1)
                    = ChatObjUrl.chatBox st ++ [user]).
  { rewrite Hbox1, filter_app, (filter_ids_below_obj n) by (done || lia).
    subst user. rewrite filter_cons_True, filter_cons_False by (cbn; lia). done. }
  assert (Hchild : S n ∈ (ChatObjUrl.chatBox st1).*1).
  { rewrite Hbox1, fmap_app. apply elem_of_app. right. cbn. set_solver. }
  assert (Hremove : ChatObjUrl.removeChild (S n) st1
                    = Some (ChatObjUrl.set_chatBox (ChatObjUrl.chatBox st ++ [user]) st1)).
  { unfold ChatObjUrl.removeChild. rewrite decide_True by done. by rewrite Hfilter. }
  assert (Hgone : ∀ message,
            ChatObjUrl.catch_block (S n) message
              (ChatObjUrl.set_chatBox (ChatObjUrl.chatBox st ++ [user]) st1)
            = ChatObjUrl.Threw
                (ChatObjUrl.set_chatBox (ChatObjUrl.chatBox st ++ [user]) st1)).
  { intros message. by eapply catch_after_removal. }
  assert (Hkept : ∀ st2', st2' = ChatObjUrl.set_chatBox (ChatObjUrl.chatBox st ++ [user]) st1 →
            ChatObjUrl.chatBox st2' = ChatObjUrl.chatBox st ++ [user] ∧
            ChatObjUrl.placeholderMap st2' = ChatObjUrl.placeholderMap st ∧
            ChatObjUrl.imgCounter st2' = ChatObjUrl.imgCounter st ∧
            ChatObjUrl.codeCounter st2' = ChatObjUrl.codeCounter st ∧
            ChatObjUrl.imagePreviewContainer st2'
            = ChatObjUrl.imagePreviewContainer st).
  { intros st2' ->. by rewrite Hst1. }
  split; [done|]. split; [by rewrite Hst1|]. split; [exact Hbox1|].
  subst st2 result reset. unfold ChatObjUrl.sendMessage_resume.
  destruct o as [message|[[] [message|data]]]; cbn [ok body negb].
  - unfold ChatObjUrl.catch_block. rewrite Hremove. cbv zeta.
    split; [reflexivity|]. split; [done|].
    transitivity ((ChatObjUrl.chatBox st ++ [user])
                  ++ [(ChatObjUrl.next_node st1,
                       ChatObjUrl.MessageEl (lit "bot") (lit "Error: " ++ message) [])]);
      [reflexivity|].
    by rewrite Hnext, <-app_assoc.
  - rewrite Hremove, Hgone. cbn [ChatObjUrl.final]. split; [done|]. by apply Hkept.
  - rewrite Hremove. cbv zeta.
    split; [reflexivity|]. split; [done|].
    transitivity
      ((λ '(id, ChatObjUrl.MessageEl sender text buttons),
          if decide (id = S (S n))
          then (id, ChatObjUrl.MessageEl sender text (buttons ++ [generated_text data]))
          else (id, ChatObjUrl.MessageEl sender text buttons)) <$>
         ((ChatObjUrl.chatBox st ++ [user])
          ++ [(S (S n), ChatObjUrl.MessageEl (lit "bot")
                          (ChatObjUrl.innerText_of (generated_text data)) [])]));
      [rewrite <-Hnext; reflexivity|].
    rewrite !fmap_app, (addDownloadButton_ids_below n) by (done || lia).
    subst user. cbn [fmap list_fmap]. rewrite decide_False, decide_True by lia.
    by rewrite <-app_assoc.
  - rewrite Hremove, Hgone. cbn [ChatObjUrl.final]. split; [done|]. by apply Hkept.
  - rewrite Hremove, Hgone. cbn [ChatObjUrl.final]. split; [done|]. by apply Hkept.
Qed.

Lemma obj_url_request_cycle_witness :
  let st := ChatObjUrl.run [ChatObjUrl.TypeMessage (lit " hi ") 4] ChatObjUrl.init in
  let o := Rejected (lit "Failed to fetch") in
  (ChatObjUrl.ids_below st ∧ ¬ blank (ChatObjUrl.messageInput_value st)) ∧
  ChatObjUrl.chatBox
    (ChatObjUrl.final (ChatObjUrl.sendMessage_resume 1 o (ChatObjUrl.sendMessage st).1))
  = [(0, ChatObjUrl.MessageEl (lit "user") (lit "hi") []);
     (2, ChatObjUrl.MessageEl (lit "bot") (lit "Error: " ++ lit "Failed to fetch") [])].
Proof.
  intros st o.
  assert (H1 : ChatObjUrl.ids_below st) by apply Forall_nil_2.
  assert (H2 : ¬ blank (ChatObjUrl.messageInput_value st)).
  { intros H%trim_blank. by vm_compute in H. }
  destruct (obj_url_request_cycle st o H1 H2) as (_ & _ & _ & _ & _ & Hbox).
  split; [done|]. exact Hbox.
Defined.

Section node_ids.





End node_ids.



Section code_blocks.
Import Chat.

Lemma addCodeFromModal_fields (codeText : jsstring) (st : State) :
  ¬ blank codeText →
  let st' := addCodeFromModal (set_codeInput_value codeText st) in
  let tok := token Code (codeCounter st) in
  let q := lastCursorPosition st in
  let v := messageInput_value st in
  messageInput_value st' = take q v ++ tok ++ drop q v ∧
  lastCursorPosition st' = q + length tok ∧
  codeCounter st' = (codeCounter st + 1)%N ∧
  imgCounter st' = imgCounter st ∧
  codePreviewContainer st' = codePreviewContainer st ++ [(codeText, tok)] ∧
  placeholderMap st' = <[tok := codeText]> (placeholderMap st) ∧
  codeInput_value st' = [].
Proof.
  intros Hcode. cbn zeta. unfold addCodeFromModal. cbv zeta.
  cbn [codeInput_value set_codeInput_value].
  rewrite decide_False by (by rewrite trim_blank).
  unfold insertPlaceholder. cbn [mint]. cbv zeta.
  cbn [messageInput_value set_codeCounter set_placeholderMap lastCursorPosition
       set_codeInput_value].
  pose proof (insertAt_value (messageInput_value st) (token Code (codeCounter st))
                (lastCursorPosition st)) as Hv.
  destruct (insertAt _ _ _) as [value newCursorPos] eqn:Hins.
  cbn [fst] in Hv. subst value.
  assert (newCursorPos = lastCursorPosition st + length (token Code (codeCounter st)))
    as -> by (by injection Hins).
  done.
Qed.

Lemma code_blocks_spec (codes : list jsstring) (st : State) :
  lastCursorPosition st ≤ length (messageInput_value st) →
  Forall (λ codeText, ¬ blank codeText) codes →
  let st' := run (codes ≫= λ codeText, [TypeCode codeText; AddCode]) st in
  let toks := (λ i, token Code (codeCounter st + N.of_nat i)) <$> seq 0 (length codes) in
  let q := lastCursorPosition st in
  let v := messageInput_value st in
  messageInput_value st' = take q v ++ concat toks ++ drop q v ∧
  lastCursorPosition st' = q + length (concat toks) ∧
  codeCounter st' = (codeCounter st + N.of_nat (length codes))%N ∧
  imgCounter st' = imgCounter st ∧
  codePreviewContainer st' = codePreviewContainer st ++ zip codes toks ∧
  (∀ i tok codeText, toks !! i = Some tok → codes !! i = Some codeText →
                     placeholderMap st' !! tok = Some codeText) ∧
  (∀ k, k ∉ toks → placeholderMap st' !! k = placeholderMap st !! k).
Proof.
  intros Hst Hcodes. revert st Hst.
  induction Hcodes as [|codeText codes Hcode _ IH]; intros st Hst; cbn zeta.
  { change (run ([] ≫= _) st) with st.
    cbn [length seq fmap list_fmap concat zip zip_with app].
    rewrite take_drop, Nat.add_0_r, N.add_0_r, app_nil_r. by split_and!. }
  change (run ((codeText :: codes) ≫= _) st)
    with (run (codes ≫= λ codeText, [TypeCode codeText; AddCode])
            (addCodeFromModal (set_codeInput_value codeText st))).
  destruct (addCodeFromModal_fields codeText st Hcode)
    as (Hv & Hq & Hc & Hic & Hp & Hm & _).
  cbn zeta in *.
  set (q := lastCursorPosition st) in *.
  set (v := messageInput_value st) in *.
  set (tok := token Code (codeCounter st)) in *.
  assert (Hqv : q ≤ length v) by exact Hst.
  assert (Hlen : length (take q v) = q) by (rewrite length_take; lia).
  assert (Hst' : lastCursorPosition (addCodeFromModal (set_codeInput_value codeText st))
                 ≤ length (messageInput_value
                             (addCodeFromModal (set_codeInput_value codeText st)))).
  { rewrite Hv, Hq, !length_app, Hlen. lia. }
  destruct (IH _ Hst') as (Hv' & Hq' & Hc' & Hic' & Hp' & Hl' & Hm'). cbn zeta in *.
  rewrite ?Hv, ?Hq, ?Hc in Hv'. rewrite ?Hq, ?Hc in Hq'. rewrite ?Hc in Hc'.
  rewrite ?Hc in Hp'. rewrite ?Hc in Hl'. rewrite ?Hc in Hm'.
  assert (Htake : take (q + length tok) (take q v ++ tok ++ drop q v) = take q v ++ tok).
  { rewrite app_assoc, take_app_length'; [done|]. by rewrite length_app, Hlen. }
  assert (Hdrop : drop (q + length tok) (take q v ++ tok ++ drop q v) = drop q v).
  { rewrite app_assoc, drop_app_length'; [done|]. by rewrite length_app, Hlen. }
  rewrite Htake, Hdrop in Hv'.
  assert (Htoks : (λ i, token Code (codeCounter st + N.of_nat i))
                    <$> seq 0 (S (length codes))
                  = tok :: ((λ i, token Code (codeCounter st + 1 + N.of_nat i))
                              <$> seq 0 (length codes))).
  { cbn [seq fmap list_fmap]. f_equal; [subst tok; f_equal; lia|].
    rewrite <-seq_shift, <-list_fmap_compose. apply list_fmap_ext.
    intros i x _. unfold compose. f_equal. lia. }
  cbn [length]. rewrite Htoks. cbn [concat zip zip_with]. rewrite length_app.
  assert (Hfresh : tok ∉ (λ i, token Code (codeCounter st + 1 + N.of_nat i))
                           <$> seq 0 (length codes)).
  { intros (i & Heq & _)%list_elem_of_fmap. apply (inj (token Code)) in Heq. lia. }
  split_and!.
  - rewrite Hv'. by rewrite <-!app_assoc.
  - rewrite Hq'. lia.
  - rewrite Hc'. lia.
  - by rewrite Hic'.
  - rewrite Hp', Hp. by rewrite <-app_assoc.
  - intros [|i] tok' codeText' Ht Hu; simplify_eq/=.
    + rewrite Hm' by done. rewrite Hm. apply lookup_insert_eq.
    + by eapply Hl'.
  - intros k [Hk1 Hk2]%not_elem_of_cons. rewrite Hm' by done.
    rewrite Hm. by apply lookup_insert_ne.
Qed.

End code_blocks.

(** X15. Code blocks in the chat front end with sessions.  The modal
    takes the focus from the message input, whose caret offset is recorded
    on focus out; code blocks then submitted one after the other, each with
    a text that is not blank, get the next code tokens in order, are stored
    in the map under them exactly as entered, are shown in new code
    previews, and their tokens are spliced in order at the recorded caret
    offset, each right after the one before; the image counter is
    untouched. *)
Theorem code_blocks_splice_in_order (st : Chat.State) (codes : list jsstring) :
  Chat.caret_within st →
  Forall (λ codeText, ¬ blank codeText) codes →
  let st0 := Chat.focusout st in
  let st' := Chat.run (codes ≫= λ codeText, [Chat.TypeCode codeText; Chat.AddCode]) st0 in
  let toks := (λ i, token Code (Chat.codeCounter st + N.of_nat i))
                <$> seq 0 (length codes) in
  let p := Chat.messageInput_selectionStart st in
  let v := Chat.messageInput_value st in
  Chat.messageInput_value st' = take p v ++ concat toks ++ drop p v ∧
  Chat.lastCursorPosition st' = p + length (concat toks) ∧
  Chat.codeCounter st' = (Chat.codeCounter st + N.of_nat (length codes))%N ∧
  Chat.imgCounter st' = Chat.imgCounter st ∧
  Chat.codePreviewContainer st' = Chat.codePreviewContainer st ++ zip codes toks ∧
  (∀ i tok codeText, toks !! i = Some tok → codes !! i = Some codeText →
                     Chat.placeholderMap st' !! tok = Some codeText).
Proof.
  intros Hst Hcodes st0 st' toks p v.
  destruct (code_blocks_spec codes st0 Hst Hcodes) as (H1 & H2 & H3 & H4 & H5 & H6 & _).
  by split_and!.
Qed.

Lemma code_blocks_splice_in_order_witness :
  let st := Chat.run [Chat.TypeMessage (lit "ab") 1] Chat.init in
  let codes := [lit "ls"; lit " cat x "] in
  let st' := Chat.run (codes ≫= λ codeText, [Chat.TypeCode codeText; Chat.AddCode])
               (Chat.focusout st) in
  (Chat.caret_within st ∧ Forall (λ codeText, ¬ blank codeText) codes) ∧
  Chat.messageInput_value st' = lit "a" ++ (lit "[[code1]]" ++ lit "[[code2]]") ++ lit "b" ∧
  Chat.placeholderMap st' !! lit "[[code2]]" = Some (lit " cat x ").
Proof.
  intros st codes st'.
  assert (H1 : Chat.caret_within st) by (unfold Chat.caret_within; cbn; lia).
  assert (H2 : Forall (λ codeText, ¬ blank codeText) codes).
  { repeat constructor; intros H%trim_blank; by vm_compute in H. }
  destruct (code_blocks_splice_in_order st codes H1 H2) as (Hv & _ & _ & _ & _ & Hm).
  split; [done|]. split; [exact Hv|]. exact (Hm 1 _ _ eq_refl eq_refl).
Defined.

Section node_ids_obj_url.
Import ChatObjUrl.








End node_ids_obj_url.


